(** * Simple Bitcoin Stratum proxy: a shallow embedding of [stratum_proxy.py]

    The proxy is a single Python module: a handful of module-level globals
    ([clients], [difficulty], [job_id], [current_block],
    [current_transactions], [extranonce1], [extranonce2_size]), one handler per
    Stratum method, a dispatcher ([handle_client]) and a template refresher
    ([get_block_template]).

    The embedding keeps that shape.  Python values are JSON values, the
    globals and the client dictionaries form an explicit store, handlers are
    computations in a state-and-exception monad, and everything the process
    gets from outside (the node's RPC answers, the clock, the random number
    generator, whether a socket write succeeds) is read from oracles indexed
    by a counter kept in the store. *)

From Stdlib Require Import ZArith List String Ascii Lia Bool.
From Stdlib Require Import PrimFloat FloatOps SpecFloat.
From stdpp Require Import base gmap list strings.

Set Warnings "-register-all".

Local Open Scope string_scope.
Local Open Scope Z_scope.

(** ** Python values *)

Module Py.

(** What [json.loads] produces, and what the handlers build and pass to
    [json.dumps]: [None], booleans, integers (unbounded), floats (binary64),
    strings, lists and dictionaries with string keys. *)
Inductive json : Type :=
| JNull
| JBool (b : bool)
| JInt (z : Z)
| JFloat (f : float)
| JStr (s : string)
| JArr (l : list json)
| JObj (kv : list (string * json)).

(** The exceptions the modelled code can raise.  All of them are subclasses
    of [Exception]; [JSONDecodeError] is the only one [handle_client] tells
    apart. *)
Inductive exn : Type :=
| TypeError | ValueError | KeyError | AttributeError | IndexError
| OverflowError | JSONDecodeError | UnicodeDecodeError | OSError.

Definition res (A : Type) : Type := (exn + A)%type.

(** Truth value testing ([if x], [if not x]). *)
Definition truthy (v : json) : bool :=
  match v with
  | JNull => false
  | JBool b => b
  | JInt z => negb (z =? 0)
  | JFloat f => negb (PrimFloat.eqb f PrimFloat.zero)
  | JStr s => negb (String.eqb s "")
  | JArr l => match l with [] => false | _ => true end
  | JObj kv => match kv with [] => false | _ => true end
  end.

(** [len(v)]. *)
Definition py_len (v : json) : res nat :=
  match v with
  | JStr s => inr (String.length s)
  | JArr l => inr (List.length l)
  | JObj kv => inr (List.length kv)
  | _ => inl TypeError
  end.

(** [v[i]] for a non-negative literal index [i].  A dictionary decoded from
    JSON has string keys only, so an integer key is never found. *)
Definition py_index (v : json) (i : nat) : res json :=
  match v with
  | JArr l => match nth_error l i with Some x => inr x | None => inl IndexError end
  | JStr s => match String.get i s with
              | Some c => inr (JStr (String c EmptyString))
              | None => inl IndexError
              end
  | JObj _ => inl KeyError
  | _ => inl TypeError
  end.

Fixpoint assoc (k : string) (kv : list (string * json)) : option json :=
  match kv with
  | [] => None
  | (k', v) :: r => if String.eqb k k' then Some v else assoc k r
  end.

(** [d.get(k, dflt)]: only dictionaries have the method. *)
Definition dict_get (d : json) (k : string) (dflt : json) : res json :=
  match d with
  | JObj kv => inr (match assoc k kv with Some v => v | None => dflt end)
  | _ => inl AttributeError
  end.

(** [v[k]] for a string key [k]: a lookup in a dictionary, a [TypeError] on
    anything else (lists and strings take integer indices only). *)
Definition py_getitem (v : json) (k : string) : res json :=
  match v with
  | JObj kv => match assoc k kv with Some x => inr x | None => inl KeyError end
  | _ => inl TypeError
  end.

Fixpoint is_substring (needle hay : string) : bool :=
  String.prefix needle hay ||
  match hay with
  | EmptyString => false
  | String _ r => is_substring needle r
  end.

(** [v == 'literal'] *)
Definition eq_str (v : json) (s : string) : bool :=
  match v with JStr s' => String.eqb s' s | _ => false end.

(** ['literal' in v]: a key of a dictionary, an element of a list, a
    substring of a string; a [TypeError] on anything else. *)
Definition py_contains (v : json) (k : string) : res bool :=
  match v with
  | JObj kv => inr (match assoc k kv with Some _ => true | None => false end)
  | JArr l => inr (existsb (fun x => eq_str x k) l)
  | JStr s => inr (is_substring k s)
  | _ => inl TypeError
  end.

(** [isinstance(v, dict)] *)
Definition is_dict (v : json) : bool :=
  match v with JObj _ => true | _ => false end.

(** [v == -8] *)
Definition eq_minus_eight (v : json) : bool :=
  match v with
  | JInt z => z =? -8
  | JFloat f => PrimFloat.eqb f (-8)%float
  | _ => false
  end.

(** [isinstance(v, int)]; [bool] is a subclass of [int]. *)
Definition is_int (v : json) : bool :=
  match v with JInt _ | JBool _ => true | _ => false end.

(** *** Hexadecimal text *)

Definition hex_digit (n : N) : ascii :=
  match n with
  | 0%N => "0" | 1%N => "1" | 2%N => "2" | 3%N => "3" | 4%N => "4"
  | 5%N => "5" | 6%N => "6" | 7%N => "7" | 8%N => "8" | 9%N => "9"
  | 10%N => "a" | 11%N => "b" | 12%N => "c" | 13%N => "d" | 14%N => "e"
  | _ => "f"
  end%char.

(** Value of a hexadecimal digit; upper and lower case are both read. *)
Definition nibble (c : ascii) : option N :=
  let n := N_of_ascii c in
  if ((48 <=? n) && (n <=? 57))%N then Some (n - 48)%N
  else if ((97 <=? n) && (n <=? 102))%N then Some (n - 87)%N
  else if ((65 <=? n) && (n <=? 70))%N then Some (n - 55)%N
  else None.

(** [Py_ISSPACE]: space, [\t], [\n], [\v], [\f], [\r]. *)
Definition is_space (c : ascii) : bool :=
  let n := N_of_ascii c in ((n =? 32) || ((9 <=? n) && (n <=? 13)))%N.

Definition byte_of_nibbles (hi lo : N) : Byte.byte :=
  match Byte.of_N (hi * 16 + lo) with Some b => b | None => Byte.x00 end.

(** [bytes.fromhex(s)] (CPython 3.7 and later): before each pair of digits any
    run of ASCII whitespace is skipped; anything else that is not a pair of
    hexadecimal digits is a [ValueError] ([None] here). *)
Fixpoint fromhex (s : string) : option (list Byte.byte) :=
  match s with
  | EmptyString => Some []
  | String c r =>
      if is_space c then fromhex r
      else match nibble c, r with
           | Some hi, String d r' =>
               match nibble d with
               | Some lo => option_map (cons (byte_of_nibbles hi lo)) (fromhex r')
               | None => None
               end
           | _, _ => None
           end
  end.

(** [b.hex()]: two lower-case digits per byte. *)
Fixpoint hex (bs : list Byte.byte) : string :=
  match bs with
  | [] => EmptyString
  | b :: r =>
      let n := Byte.to_N b in
      String (hex_digit (n / 16)) (String (hex_digit (n mod 16)) (hex r))
  end.

(** [bytes.fromhex(v)] on an arbitrary value: a [TypeError] unless [v] is a
    string. *)
Definition bytes_fromhex (v : json) : res (list Byte.byte) :=
  match v with
  | JStr s => match fromhex s with Some bs => inr bs | None => inl ValueError end
  | _ => inl TypeError
  end.

(** [bytes.fromhex(v)[::-1].hex()], the byte-order normalisation [send_job]
    applies to the previous hash, the version, the bits and the time. *)
Definition reversed_hex (v : json) : res string :=
  match bytes_fromhex v with
  | inr bs => inr (hex (rev bs))
  | inl e => inl e
  end.

(** The same transform on strings, [None] standing for the exception. *)
Definition le_hex (s : string) : option string :=
  option_map (fun bs => hex (rev bs)) (fromhex s).

Fixpoint hex_digits (fuel : nat) (n : N) (acc : string) : string :=
  match fuel with
  | O => acc
  | S fuel' =>
      if (n =? 0)%N then acc
      else hex_digits fuel' (n / 16)%N (String (hex_digit (n mod 16)) acc)
  end.

(** Lower-case hexadecimal digits of a natural number, ["0"] for zero. *)
Definition hex_of_N (n : N) : string :=
  if (n =? 0)%N then "0" else hex_digits (N.to_nat (N.size n)) n EmptyString.

Fixpoint zeros (k : nat) : string :=
  match k with O => EmptyString | S k' => String "0"%char (zeros k') end.

(** [format(z, 'x')] *)
Definition format_x (z : Z) : string :=
  if z <? 0 then String "-"%char (hex_of_N (Z.abs_N z)) else hex_of_N (Z.abs_N z).

(** [format(z, '08x')]: zero padding goes between the sign and the digits,
    the sign counts towards the width of eight. *)
Definition format_08x_int (z : Z) : string :=
  let d := hex_of_N (Z.abs_N z) in
  if z <? 0 then String "-"%char (String.append (zeros (7 - String.length d)%nat) d)
  else String.append (zeros (8 - String.length d)%nat) d.

(** [format(v, '08x')] on an arbitrary value. *)
Definition format_08x (v : json) : res string :=
  match v with
  | JInt z => inr (format_08x_int z)
  | JBool b => inr (format_08x_int (if b then 1 else 0))
  | JFloat _ | JStr _ => inl ValueError
  | JNull | JArr _ | JObj _ => inl TypeError
  end.

(** [hex(z)[2:]]: for a negative number the slice drops ["-0"] and keeps the
    ["x"]. *)
Definition hex_slice2 (z : Z) : string :=
  if z <? 0 then String "x"%char (hex_of_N (Z.abs_N z)) else hex_of_N (Z.abs_N z).

(** [s.zfill(8)]; a leading sign stays in front of the padding. *)
Definition zfill8 (s : string) : string :=
  match s with
  | String c r =>
      if (Ascii.eqb c "-" || Ascii.eqb c "+")%char
      then String c (String.append (zeros (7 - String.length r)%nat) r)
      else String.append (zeros (8 - String.length s)%nat) s
  | EmptyString => zeros 8
  end.

(** *** Floats *)

(** [float(z)] for an integer: the nearest binary64 value (ties to even), and
    an [OverflowError] when that is not finite. *)
Definition float_of_Z (z : Z) : res float :=
  let f := SF2Prim (binary_normalize prec emax z 0 false) in
  if PrimFloat.is_infinity f then inl OverflowError else inr f.

Section Float.

(** [float(s)] on a string is the Python runtime's parser, taken as given;
    [None] is its [ValueError]. *)
Variable float_of_str : string -> option float.

(** [float(v)] *)
Definition py_float (v : json) : res float :=
  match v with
  | JInt z => float_of_Z z
  | JBool b => inr (if b then PrimFloat.one else PrimFloat.zero)
  | JFloat f => inr f
  | JStr s => match float_of_str s with Some f => inr f | None => inl ValueError end
  | JNull | JArr _ | JObj _ => inl TypeError
  end.

End Float.

End Py.

Import Py.

(** ** The process state *)

(** A client is a Python dictionary created by [handle_client] and shared, by
    reference, between the connection's own handler and the global [clients]
    list.  References are the dictionaries' identities; the dictionaries live
    in [heap]. *)
Definition ref : Type := nat.

Record client : Type := Client {
  socket_closed : bool;            (* client['socket'], after close() or not *)
  address : string * Z;            (* client['address'] *)
  buffer : list Byte.byte;         (* client['buffer'] *)
  username : json                  (* client['username'], None at first *)
}.

(** A dictionary as [handle_client] builds it. *)
Definition new_client (addr : string * Z) : client :=
  {| socket_closed := false; address := addr; buffer := []; username := JNull |}.

Inductive level : Type := INFO | WARNING | ERROR.

(** The records the logger emits at its configured level ([INFO]); the
    [logger.debug] calls are below it and leave no trace. *)
Inductive record : Type :=
| FailedTemplate
| GotTemplate (height : json)
| NewClient (addr : string * Z)
| ClientAuthorized (addr : string * Z) (user : json)
| ShareSubmitted (worker job nonce : json)
| ShareAccepted (worker : json)
| SendingJob (job : Z) (addr : string * Z) (bits : string)
| SendError
| ClientDisconnected (addr : string * Z)
| ConfigureParams (params : json)
| SuggestParams (params : json)
| MinerSuggested (d : float)
| UnknownMethod (addr : string * Z) (method : json)
| InvalidJSON (addr : string * Z)
| ProcessingError (addr : string * Z) (e : exn)
| RpcError (err : json)
| RpcNonCritical (err : json)
| RpcAuthFailed
| RpcHttpError (status : Z) (reason : string)
| RpcConnectionRefused
| RpcConnectionError (e : exn).

(** One call of [socket.sendall]: to whom, the message (before
    [json.dumps]), and whether the call returned rather than raised. *)
Record wire_event : Type := Wire { w_to : ref; w_data : json; w_ok : bool }.

Record state : Type := State {
  clients : list ref;
  heap : gmap nat client;
  next_ref : ref;
  difficulty : json;
  job_id : Z;
  current_block : json;
  current_transactions : json;
  extranonce1 : option string;
  wire : list wire_event;
  log : list (level * record);
  rpc_calls : list (string * json);
  tick : nat
}.

Definition extranonce2_size : Z := 4.

(** The module's globals as the interpreter leaves them after import. *)
Definition initial : state :=
  {| clients := []; heap := ∅; next_ref := 0%nat;
     difficulty := JInt 1; job_id := 0;
     current_block := JNull; current_transactions := JNull;
     extranonce1 := None;
     wire := []; log := []; rpc_calls := []; tick := 0%nat |}.

Definition set_clients (x : list ref) (s : state) : state :=
  State x (heap s) (next_ref s) (difficulty s) (job_id s) (current_block s)
        (current_transactions s) (extranonce1 s) (wire s) (log s) (rpc_calls s) (tick s).
Definition set_heap (x : gmap nat client) (s : state) : state :=
  State (clients s) x (next_ref s) (difficulty s) (job_id s) (current_block s)
        (current_transactions s) (extranonce1 s) (wire s) (log s) (rpc_calls s) (tick s).
Definition set_next_ref (x : ref) (s : state) : state :=
  State (clients s) (heap s) x (difficulty s) (job_id s) (current_block s)
        (current_transactions s) (extranonce1 s) (wire s) (log s) (rpc_calls s) (tick s).
Definition set_difficulty (x : json) (s : state) : state :=
  State (clients s) (heap s) (next_ref s) x (job_id s) (current_block s)
        (current_transactions s) (extranonce1 s) (wire s) (log s) (rpc_calls s) (tick s).
Definition set_job_id (x : Z) (s : state) : state :=
  State (clients s) (heap s) (next_ref s) (difficulty s) x (current_block s)
        (current_transactions s) (extranonce1 s) (wire s) (log s) (rpc_calls s) (tick s).
Definition set_current_block (x : json) (s : state) : state :=
  State (clients s) (heap s) (next_ref s) (difficulty s) (job_id s) x
        (current_transactions s) (extranonce1 s) (wire s) (log s) (rpc_calls s) (tick s).
Definition set_current_transactions (x : json) (s : state) : state :=
  State (clients s) (heap s) (next_ref s) (difficulty s) (job_id s) (current_block s)
        x (extranonce1 s) (wire s) (log s) (rpc_calls s) (tick s).
Definition set_extranonce1 (x : option string) (s : state) : state :=
  State (clients s) (heap s) (next_ref s) (difficulty s) (job_id s) (current_block s)
        (current_transactions s) x (wire s) (log s) (rpc_calls s) (tick s).
Definition set_wire (x : list wire_event) (s : state) : state :=
  State (clients s) (heap s) (next_ref s) (difficulty s) (job_id s) (current_block s)
        (current_transactions s) (extranonce1 s) x (log s) (rpc_calls s) (tick s).
Definition set_log (x : list (level * record)) (s : state) : state :=
  State (clients s) (heap s) (next_ref s) (difficulty s) (job_id s) (current_block s)
        (current_transactions s) (extranonce1 s) (wire s) x (rpc_calls s) (tick s).
Definition set_rpc_calls (x : list (string * json)) (s : state) : state :=
  State (clients s) (heap s) (next_ref s) (difficulty s) (job_id s) (current_block s)
        (current_transactions s) (extranonce1 s) (wire s) (log s) x (tick s).
Definition set_tick (x : nat) (s : state) : state :=
  State (clients s) (heap s) (next_ref s) (difficulty s) (job_id s) (current_block s)
        (current_transactions s) (extranonce1 s) (wire s) (log s) (rpc_calls s) x.

(** Reading a client dictionary.  Handlers only ever hold references that
    [handle_client] allocated; the default is there to keep the read total. *)
Definition client_of (s : state) (c : ref) : client :=
  default (new_client ("", 0)) (heap s !! c).

(** ** The world outside the process *)

(** What one HTTP exchange of [bitcoin_rpc] with the node comes to. *)
Inductive http_reply : Type :=
| Refused                         (* [ConnectionRefusedError] *)
| Broken (e : exn)                (* any other exception of the request or the read *)
| Replied (status : Z) (reason : string) (body : res json).
                                  (* [json.loads(response.read().decode())] *)

(** Each oracle is indexed by the store's [tick], which every consultation
    advances. *)
Record world : Type := World {
  http : nat -> string -> json -> http_reply;   (* the node's HTTP endpoint *)
  clock : nat -> Z;                       (* [int(time.time())] *)
  rand_index : nat -> nat;                (* [random.choice] over 16 characters *)
  rand_below_tenth : nat -> bool;         (* [random.random() < 0.1] *)
  sendall_fails : nat -> bool;            (* [socket.sendall] raises *)
  float_of_str : string -> option float   (* [float(s)] on a string *)
}.

(** ** Computations: state and exceptions *)

Definition M (A : Type) : Type := state -> res A * state.

Definition ret {A} (a : A) : M A := fun s => (inr a, s).
Definition raise {A} (e : exn) : M A := fun s => (inl e, s).
Definition bind {A B} (m : M A) (k : A -> M B) : M B :=
  fun s => match m s with
           | (inr a, s') => k a s'
           | (inl e, s') => (inl e, s')
           end.
Definition lift {A} (r : res A) : M A := fun s => (r, s).
Definition gets {A} (f : state -> A) : M A := fun s => (inr (f s), s).
Definition modify (f : state -> state) : M unit := fun s => (inr tt, f s).
(** [try: m except Exception as e: h e] *)
Definition catch {A} (m : M A) (h : exn -> M A) : M A :=
  fun s => match m s with
           | (inl e, s') => h e s'
           | r => r
           end.
Definition when (b : bool) (m : M unit) : M unit := if b then m else ret tt.

Declare Scope M_scope.
Delimit Scope M_scope with M.
Notation "x <- m ;; k" := (bind m (fun x => k))
  (at level 100, m at next level, right associativity) : M_scope.
Notation "m ;; k" := (bind m (fun _ => k))
  (at level 100, right associativity) : M_scope.
Local Open Scope M_scope.

(** The final state and the outcome of a computation. *)
Definition exec {A} (m : M A) (s : state) : state := snd (m s).
Definition outcome {A} (m : M A) (s : state) : res A := fst (m s).

Definition logger (l : level) (r : record) : M unit :=
  modify (fun s => set_log (log s ++ [(l, r)]) s).

Definition next_tick : M nat :=
  fun s => (inr (tick s), set_tick (S (tick s)) s).

(** ** The handlers *)

Section Proxy.

Variable W : world.

Fixpoint log_all (rs : list (level * record)) : M unit :=
  match rs with
  | [] => ret tt
  | (l, r) :: rs' => logger l r ;; log_all rs'
  end.

(** The body of a status 200 reply, as [bitcoin_rpc] reads it: the records
    it logs and the value it returns, or the exception raised on the way. *)
Definition read_result (result : json) : res (list (level * record) * json) :=
  match py_contains result "error" with
  | inl e => inl e
  | inr has_error =>
      match (if has_error then py_getitem result "error" else inr JNull) with
      | inl e => inl e
      | inr err =>
          if has_error && truthy err then
            if is_dict err &&
               match dict_get err "code" JNull with
               | inr code => eq_minus_eight code
               | inl _ => false
               end
            then inr ([(ERROR, RpcError err); (WARNING, RpcNonCritical err)], JObj [])
            else inr ([(ERROR, RpcError err)], JNull)
          else
            match py_getitem result "result" with
            | inl e => inl e
            | inr v => inr ([], v)
            end
      end
  end.

(** What [bitcoin_rpc] makes of an HTTP exchange: the records it logs and
    the value it returns.  Every exception is caught inside the function. *)
Definition interpret (r : http_reply) : list (level * record) * json :=
  match r with
  | Refused => ([(ERROR, RpcConnectionRefused)], JNull)
  | Broken e => ([(ERROR, RpcConnectionError e)], JNull)
  | Replied status reason body =>
      if status =? 200 then
        match body with
        | inl e => ([(ERROR, RpcConnectionError e)], JNull)
        | inr result =>
            match read_result result with
            | inl e => ([(ERROR, RpcConnectionError e)], JNull)
            | inr out => out
            end
        end
      else if status =? 401 then ([(ERROR, RpcAuthFailed)], JNull)
      else ([(ERROR, RpcHttpError status reason)], JNull)
  end.

(** What [bitcoin_rpc(method, params)] returns at oracle position [t]. *)
Definition node (t : nat) (method : string) (params : json) : json :=
  snd (interpret (http W t method params)).

(** What it logs there. *)
Definition node_log (t : nat) (method : string) (params : json)
  : list (level * record) :=
  fst (interpret (http W t method params)).

(** [bitcoin_rpc(method, params)]: every failure inside it is caught, logged
    and turned into [None] (or [{}]), so it returns a value and never
    raises. *)
Definition bitcoin_rpc (method : string) (params : json) : M json :=
  t <- next_tick ;;
  modify (fun s => set_rpc_calls (rpc_calls s ++ [(method, params)]) s) ;;
  log_all (node_log t method params) ;;
  ret (node t method params).

Definition time_time : M Z :=
  t <- next_tick ;; ret (clock W t).

(** [random.choice('0123456789abcdef')] *)
Definition random_choice : M ascii :=
  t <- next_tick ;; ret (hex_digit (N.of_nat (rand_index W t mod 16))).

(** [''.join(random.choice('0123456789abcdef') for _ in range(n))] *)
Fixpoint random_hex (n : nat) : M string :=
  match n with
  | O => ret EmptyString
  | S n' => c <- random_choice ;; r <- random_hex n' ;; ret (String c r)
  end.

(** [random.random() < 0.1] *)
Definition random_below_tenth : M bool :=
  t <- next_tick ;; ret (rand_below_tenth W t).

Fixpoint remove_first (c : ref) (l : list ref) : list ref :=
  match l with
  | [] => []
  | x :: r => if (x =? c)%nat then r else x :: remove_first c r
  end.

Definition mem (c : ref) (l : list ref) : bool := existsb (Nat.eqb c) l.

(** [client['socket'].close()] *)
Definition closed_client (cl : client) : client :=
  {| socket_closed := true; address := address cl;
     buffer := buffer cl; username := username cl |}.

Definition close_socket (c : ref) : M unit :=
  modify (fun s => set_heap (<[c := closed_client (client_of s c)]> (heap s)) s).

(** [remove_client(client)].  Two client dictionaries are equal only when
    they hold the same socket object, so [client in clients] and
    [clients.remove(client)] go by identity. *)
Definition remove_client (c : ref) : M unit :=
  cs <- gets clients ;;
  when (mem c cs)
    (close_socket c ;;
     modify (fun s => set_clients (remove_first c (clients s)) s) ;;
     a <- gets (fun s => address (client_of s c)) ;;
     logger INFO (ClientDisconnected a)).

(** [send_to_client(client, data)]: [sendall] raises on a socket this process
    has closed, and otherwise when the network says so. *)
Definition send_to_client (c : ref) (data : json) : M unit :=
  t <- next_tick ;;
  closed <- gets (fun s => socket_closed (client_of s c)) ;;
  let ok := negb (closed || sendall_fails W t) in
  modify (fun s => set_wire (wire s ++ [Wire c data ok]) s) ;;
  if ok then ret tt
  else (logger ERROR SendError ;; remove_client c).

Definition coinbase1 : string :=
  "01000000010000000000000000000000000000000000000000000000000000000000000000ffffffff20".
Definition coinbase2 : string :=
  "ffffffff0100f2052a01000000434104678afdb0fe5548271967f1a67130b7105cd6a828e03909a67962e0ea1f61deb649f6bc3f4cef38c4f35504e51ec112de5c384df7ba0b8d578a4c702b6bf11d5fac00000000".

(** The [mining.notify] message of [send_job], from the already normalised
    fields. *)
Definition job_notification (job : Z) (prevhash version bits ntime : string) : json :=
  JObj [("id", JNull);
        ("method", JStr "mining.notify");
        ("params", JArr [JStr (format_x job); JStr prevhash;
                         JStr coinbase1; JStr coinbase2; JArr [];
                         JStr version; JStr bits; JStr ntime; JBool false])].

(** [send_job(client)] *)
Definition send_job (c : ref) : M unit :=
  cb <- gets current_block ;;
  if negb (truthy cb) then ret tt else
  prevhash <- lift (dict_get cb "previousblockhash" (JStr "")) ;;
  if negb (truthy prevhash) then ret tt else
  reversed_prevhash <- lift (reversed_hex prevhash) ;;
  v <- lift (dict_get cb "version" (JInt 1)) ;;
  version_hex <- lift (format_08x v) ;;
  version <- lift (reversed_hex (JStr version_hex)) ;;
  bits_hex <- lift (dict_get cb "bits" (JStr "1d00ffff")) ;;
  bits <- lift (reversed_hex bits_hex) ;;
  now <- time_time ;;
  ntime_raw <- lift (dict_get cb "curtime" (JInt now)) ;;
  ntime_hex <- (if is_int ntime_raw
                then h <- lift (format_08x ntime_raw) ;; ret (JStr h)
                else ret ntime_raw) ;;
  ntime <- lift (reversed_hex ntime_hex) ;;
  job <- gets job_id ;;
  a <- gets (fun s => address (client_of s c)) ;;
  logger INFO (SendingJob job a bits) ;;
  send_to_client c (job_notification job reversed_prevhash version bits ntime).

(** The [for client in clients] loop of [get_block_template].  Python's list
    iterator is an index into the list as it is at each step, so a client
    removed by a failed send shifts the ones behind it.  The list only
    shrinks while the loop runs, so its initial length is enough fuel. *)
Fixpoint notify_loop (fuel : nat) (i : nat) : M unit :=
  match fuel with
  | O => ret tt
  | S fuel' =>
      cs <- gets clients ;;
      match nth_error cs i with
      | None => ret tt
      | Some c =>
          u <- gets (fun s => username (client_of s c)) ;;
          when (truthy u) (send_job c) ;;
          notify_loop fuel' (S i)
      end
  end.

(** The placeholder [get_block_template] falls back to. *)
Definition dummy_template (now : Z) : json :=
  JObj [("previousblockhash",
         JStr "000000000000000000096b9ba75c557a8b5ad267b11ddddd97f2c62a1b2a8f4c");
        ("bits", JStr "1a03c34b");
        ("curtime", JStr (zfill8 (hex_slice2 now)));
        ("height", JInt 800000);
        ("transactions", JArr [])].

Definition getblocktemplate_params : json :=
  JArr [JObj [("rules", JArr [JStr "segwit"])]].

(** [get_block_template()] *)
Definition get_block_template : M json :=
  t0 <- bitcoin_rpc "getblocktemplate" getblocktemplate_params ;;
  template <- (if negb (truthy t0)
               then logger ERROR FailedTemplate ;;
                    now <- time_time ;;
                    ret (dummy_template now)
               else ret t0) ;;
  modify (set_current_block template) ;;
  txs <- lift (dict_get template "transactions" (JArr [])) ;;
  modify (set_current_transactions txs) ;;
  modify (fun s => set_job_id (job_id s + 1) s) ;;
  h <- lift (dict_get template "height" (JStr "unknown")) ;;
  logger INFO (GotTemplate h) ;;
  n <- gets (fun s => List.length (clients s)) ;;
  notify_loop n 0 ;;
  ret template.

(** [{'id': msg_id, 'result': result, 'error': None}] *)
Definition response (msg_id result : json) : json :=
  JObj [("id", msg_id); ("result", result); ("error", JNull)].

Definition subscribe_result (e : string) : json :=
  JArr [JArr [JStr "mining.notify"; JStr (String.append "proxy_" e)];
        JStr e; JInt extranonce2_size].

(** [handle_subscribe(client, msg_id)] *)
Definition handle_subscribe (c : ref) (msg_id : json) : M unit :=
  e0 <- gets extranonce1 ;;
  e <- (match e0 with
        | Some s => if negb (String.eqb s "") then ret s
                    else (s' <- random_hex 8 ;;
                          modify (set_extranonce1 (Some s')) ;; ret s')
        | None => s' <- random_hex 8 ;;
                  modify (set_extranonce1 (Some s')) ;; ret s'
        end) ;;
  send_to_client c (response msg_id (subscribe_result e)).

(** [client['username'] = username] *)
Definition renamed_client (u : json) (cl : client) : client :=
  {| socket_closed := socket_closed cl; address := address cl;
     buffer := buffer cl; username := u |}.

Definition set_username (c : ref) (u : json) : M unit :=
  modify (fun s => set_heap (<[c := renamed_client u (client_of s c)]> (heap s)) s).

Definition difficulty_message (d : json) : json :=
  JObj [("id", JNull); ("method", JStr "mining.set_difficulty"); ("params", JArr [d])].

(** [handle_authorize(client, msg_id, username, password)] *)
Definition handle_authorize (c : ref) (msg_id user password : json) : M unit :=
  send_to_client c (response msg_id (JBool true)) ;;
  set_username c user ;;
  a <- gets (fun s => address (client_of s c)) ;;
  logger INFO (ClientAuthorized a user) ;;
  d <- gets difficulty ;;
  send_to_client c (difficulty_message d) ;;
  cb <- gets current_block ;;
  (if negb (truthy cb) then (_ <- get_block_template ;; ret tt) else ret tt) ;;
  cb' <- gets current_block ;;
  when (truthy cb') (send_job c).

(** [handle_submit(client, msg_id, worker_name, job_id, extranonce2, ntime,
    nonce)] *)
Definition handle_submit (c : ref) (msg_id worker job extranonce2 ntime nonce : json)
  : M unit :=
  logger INFO (ShareSubmitted worker job nonce) ;;
  send_to_client c (response msg_id (JBool true)) ;;
  logger INFO (ShareAccepted worker) ;;
  r <- random_below_tenth ;;
  if r then (_ <- get_block_template ;; ret tt) else ret tt.

(** [handle_configure(client, msg_id, params)] *)
Definition handle_configure (c : ref) (msg_id params : json) : M unit :=
  logger INFO (ConfigureParams params) ;;
  send_to_client c
    (response msg_id (JObj [("version-rolling", JBool false); ("subscriptions", JArr [])])).

(** [handle_suggest_difficulty(client, msg_id, params)] *)
Definition handle_suggest_difficulty (c : ref) (msg_id params : json) : M unit :=
  logger INFO (SuggestParams params) ;;
  (if truthy params then
     n <- lift (py_len params) ;;
     if (0 <? n)%nat then
       p0 <- lift (py_index params 0) ;;
       suggested_diff <- lift (py_float (float_of_str W) p0) ;;
       logger INFO (MinerSuggested suggested_diff) ;;
       modify (set_difficulty (JFloat suggested_diff))
     else ret tt
   else ret tt) ;;
  send_to_client c (response msg_id (JBool true)).

(** The [if]/[elif] chain of [handle_client], on the three fields read off
    the message. *)
Definition route (c : ref) (method msg_id params : json) : M unit :=
  if eq_str method "mining.subscribe" then
    handle_subscribe c msg_id
  else if eq_str method "mining.authorize" then
    n <- lift (py_len params) ;;
    if (2 <=? n)%nat then
      p0 <- lift (py_index params 0) ;;
      p1 <- lift (py_index params 1) ;;
      handle_authorize c msg_id p0 p1
    else ret tt
  else if eq_str method "mining.submit" then
    n <- lift (py_len params) ;;
    if (5 <=? n)%nat then
      p0 <- lift (py_index params 0) ;;
      p1 <- lift (py_index params 1) ;;
      p2 <- lift (py_index params 2) ;;
      p3 <- lift (py_index params 3) ;;
      p4 <- lift (py_index params 4) ;;
      handle_submit c msg_id p0 p1 p2 p3 p4
    else ret tt
  else if eq_str method "mining.configure" then
    handle_configure c msg_id params
  else if eq_str method "mining.suggest_difficulty" then
    handle_suggest_difficulty c msg_id params
  else
    a <- gets (fun s => address (client_of s c)) ;;
    logger WARNING (UnknownMethod a method) ;;
    send_to_client c (response msg_id (JBool true)).

(** The body of the [try] in [handle_client], once a line has been decoded
    into [message]. *)
Definition dispatch (c : ref) (message : json) : M unit :=
  method <- lift (dict_get message "method" (JStr "")) ;;
  msg_id <- lift (dict_get message "id" (JInt 0)) ;;
  params <- lift (dict_get message "params" (JArr [])) ;;
  route c method msg_id params.

(** One line taken off the client's buffer: [decoded] is what
    [json.loads(line.decode().strip())] gave, a value or the exception it
    raised.  Whatever is raised while the line is handled is logged and the
    loop goes on to the next line. *)
Definition handle_line (c : ref) (decoded : res json) : M unit :=
  let on_error (e : exn) : M unit :=
    a <- gets (fun s => address (client_of s c)) ;;
    match e with
    | JSONDecodeError => logger WARNING (InvalidJSON a)
    | _ => logger ERROR (ProcessingError a e)
    end in
  catch (message <- lift decoded ;; dispatch c message) on_error.

(** The head of [handle_client]: a new dictionary, appended to [clients]. *)
Definition accept_client (addr : string * Z) : M ref :=
  c <- gets next_ref ;;
  modify (fun s => set_next_ref (S c) (set_heap (<[c := new_client addr]> (heap s)) s)) ;;
  modify (fun s => set_clients (clients s ++ [c]) s) ;;
  logger INFO (NewClient addr) ;;
  ret c.

(** What the process does, one step at a time: a connection is accepted, a
    line arrives on a connection, a connection's loop ends, or the refresher
    thread calls [get_block_template] (an exception there ends that thread
    and leaves the state as it is). *)
Inductive event : Type :=
| Connect (addr : string * Z)
| Line (c : ref) (decoded : res json)
| Disconnect (c : ref)
| Refresh.

Definition run_event (ev : event) : M unit :=
  match ev with
  | Connect addr => _ <- accept_client addr ;; ret tt
  | Line c decoded => handle_line c decoded
  | Disconnect c => remove_client c
  | Refresh => _ <- get_block_template ;; ret tt
  end.

Definition run_events (evs : list event) (s : state) : state :=
  fold_left (fun s ev => exec (run_event ev) s) evs s.

End Proxy.


(** ** The share check the specification describes

    [handle_submit] has no share check.  To say what a header hash and a
    target are, the definitions of this module follow the specification's
    Share Validator (its section 4.4) and Bitcoin's conventions, not the
    source: SHA-256 (FIPS 180-4), the double hash, the coinbase and header
    assembly, and the compact-bits target. *)

Module ShareValidatorSpec.

Local Open Scope list_scope.

Definition mask32 : Z := 4294967295.
Definition add32 (x y : Z) : Z := Z.land (x + y) mask32.
Definition rotr (n x : Z) : Z :=
  Z.lor (Z.shiftr x n) (Z.land (Z.shiftl x (32 - n)) mask32).
Definition xor3 (x y z : Z) : Z := Z.lxor x (Z.lxor y z).
Definition ch (x y z : Z) : Z :=
  Z.lxor (Z.land x y) (Z.land (Z.lxor x mask32) z).
Definition maj (x y z : Z) : Z :=
  xor3 (Z.land x y) (Z.land x z) (Z.land y z).
Definition big_sigma0 (x : Z) : Z := xor3 (rotr 2 x) (rotr 13 x) (rotr 22 x).
Definition big_sigma1 (x : Z) : Z := xor3 (rotr 6 x) (rotr 11 x) (rotr 25 x).
Definition small_sigma0 (x : Z) : Z := xor3 (rotr 7 x) (rotr 18 x) (Z.shiftr x 3).
Definition small_sigma1 (x : Z) : Z := xor3 (rotr 17 x) (rotr 19 x) (Z.shiftr x 10).

(** The first 64 primes. *)
Definition primes : list Z :=
  [2; 3; 5; 7; 11; 13; 17; 19; 23; 29; 31; 37; 41; 43; 47; 53; 59; 61; 67; 71;
   73; 79; 83; 89; 97; 101; 103; 107; 109; 113; 127; 131; 137; 139; 149; 151;
   157; 163; 167; 173; 179; 181; 191; 193; 197; 199; 211; 223; 227; 229; 233;
   239; 241; 251; 257; 263; 269; 271; 277; 281; 283; 293; 307; 311].

(** Integer cube root below [2 ^ bits], one bit at a time from the top. *)
Fixpoint cube_root (bits : nat) (n r : Z) : Z :=
  match bits with
  | O => r
  | S k =>
      let r' := r + Z.shiftl 1 (Z.of_nat k) in
      cube_root k n (if r' * r' * r' <=? n then r' else r)
  end.

(** FIPS 180-4, 4.2.2: the first 32 bits of the fractional parts of the cube
    roots of the first 64 primes. *)
Definition round_constants : list Z :=
  map (fun q => Z.land (cube_root 36 (Z.shiftl q 96) 0) mask32) primes.

(** FIPS 180-4, 5.3.3: the first 32 bits of the fractional parts of the
    square roots of the first 8 primes. *)
Definition initial_hash : list Z :=
  map (fun q => Z.land (Z.sqrt (Z.shiftl q 64)) mask32) (firstn 8 primes).

Definition word_at (w : list Z) (i : nat) : Z := nth i w 0.

(** The message schedule: [k] more words after the ones in [w]. *)
Fixpoint schedule (k : nat) (w : list Z) : list Z :=
  match k with
  | O => w
  | S k' =>
      let t := List.length w in
      schedule k'
        (w ++ [add32 (add32 (small_sigma1 (word_at w (t - 2))) (word_at w (t - 7)))
                     (add32 (small_sigma0 (word_at w (t - 15))) (word_at w (t - 16)))])
  end.

(** One round on the working variables [a..h]. *)
Definition round (v : list Z) (kw : Z * Z) : list Z :=
  match v with
  | [a; b; c; d; e; f; g; h] =>
      let t1 := add32 (add32 (add32 h (big_sigma1 e)) (ch e f g))
                      (add32 (fst kw) (snd kw)) in
      let t2 := add32 (big_sigma0 a) (maj a b c) in
      [add32 t1 t2; a; b; c; add32 d t1; e; f; g]
  | _ => v
  end.

(** The compression of one 16-word block into the hash value [hv]. *)
Definition compress (hv : list Z) (block : list Z) : list Z :=
  let w := schedule 48 block in
  let v := fold_left round (combine round_constants w) hv in
  map (fun p => add32 (fst p) (snd p)) (combine hv v).

Fixpoint be_bytes (k : nat) (x : Z) : list Z :=
  match k with
  | O => []
  | S k' => Z.land (Z.shiftr x (8 * Z.of_nat k')) 255 :: be_bytes k' x
  end.

(** Big-endian value of a byte sequence. *)
Definition be_value (bs : list Z) : Z := fold_left (fun acc b => acc * 256 + b) bs 0.

(** Padding: a one bit, zeros up to 56 modulo 64, the bit length on 8 bytes. *)
Definition pad (msg : list Z) : list Z :=
  let n := List.length msg in
  let z := ((64 + 55 - n mod 64) mod 64)%nat in
  msg ++ [128] ++ repeat 0 z ++ be_bytes 8 (8 * Z.of_nat n).

Fixpoint words (k : nat) (bs : list Z) : list Z :=
  match k, bs with
  | S k', b0 :: b1 :: b2 :: b3 :: r => be_value [b0; b1; b2; b3] :: words k' r
  | _, _ => []
  end.

Fixpoint blocks (k : nat) (ws : list Z) : list (list Z) :=
  match k with
  | O => []
  | S k' => match ws with
            | [] => []
            | _ => firstn 16 ws :: blocks k' (skipn 16 ws)
            end
  end.

Definition sha256 (msg : list Z) : list Z :=
  let p := pad msg in
  let ws := words (List.length p) p in
  flat_map (be_bytes 4) (fold_left compress (blocks (List.length ws) ws) initial_hash).

(** The double hash. *)
Definition dsha256 (msg : list Z) : list Z := sha256 (sha256 msg).

Definition bytes_of_hex (s : string) : option (list Z) :=
  option_map (map (fun b => Z.of_N (Byte.to_N b))) (fromhex s).

(** A job as [mining.notify] carries it. *)
Record job : Type := Job {
  prev_hash_le : string;
  coinb1 : string;
  coinb2 : string;
  merkle_branches : list string;
  version_le : string;
  bits_le : string
}.

Definition bind_opt {A B} (o : option A) (f : A -> option B) : option B :=
  match o with Some a => f a | None => None end.

(** Step 2: coinbase = part 1, extranonce1, extranonce2, part 2. *)
Definition coinbase_tx (j : job) (extranonce1 extranonce2 : string) : option (list Z) :=
  bytes_of_hex (String.append (coinb1 j)
                  (String.append extranonce1 (String.append extranonce2 (coinb2 j)))).

(** Step 3: the merkle root from the coinbase hash and the branches. *)
Fixpoint merkle_root (h : list Z) (branches : list string) : option (list Z) :=
  match branches with
  | [] => Some h
  | br :: r => bind_opt (bytes_of_hex br) (fun b => merkle_root (dsha256 (h ++ b)) r)
  end.

(** Step 4: the 80-byte header.  The job's fields are in wire (byte-reversed)
    order already; the submission's [ntime] and [nonce] are reversed here. *)
Definition header (j : job) (extranonce1 extranonce2 ntime nonce : string)
  : option (list Z) :=
  bind_opt (coinbase_tx j extranonce1 extranonce2) (fun cb =>
  bind_opt (merkle_root (dsha256 cb) (merkle_branches j)) (fun root =>
  bind_opt (bytes_of_hex (version_le j)) (fun v =>
  bind_opt (bytes_of_hex (prev_hash_le j)) (fun p =>
  bind_opt (bytes_of_hex ntime) (fun t =>
  bind_opt (bytes_of_hex (bits_le j)) (fun b =>
  bind_opt (bytes_of_hex nonce) (fun n =>
    Some (v ++ p ++ root ++ rev t ++ b ++ rev n)))))))).

(** Step 5: the header's double hash, read as a big-endian integer. *)
Definition header_hash (j : job) (extranonce1 extranonce2 ntime nonce : string)
  : option Z :=
  option_map (fun h => be_value (dsha256 h))
             (header j extranonce1 extranonce2 ntime nonce).

(** The same hash read the other way round, as Bitcoin compares it. *)
Definition header_hash_le (j : job) (extranonce1 extranonce2 ntime nonce : string)
  : option Z :=
  option_map (fun h => be_value (rev (dsha256 h)))
             (header j extranonce1 extranonce2 ntime nonce).

(** The target the compact [bits] encode: mantissa times 256 to the
    (exponent - 3). *)
Definition network_target (j : job) : option Z :=
  bind_opt (bytes_of_hex (bits_le j)) (fun b =>
    match rev b with
    | [e; m2; m1; m0] =>
        let m := be_value [m2; m1; m0] in
        Some (if e <? 3 then Z.shiftr m (8 * (3 - e)) else Z.shiftl m (8 * (e - 3)))
    | _ => None
    end).

(** The session's target for an integer difficulty of at least one. *)
Definition effective_target (j : job) (session_difficulty : Z) : option Z :=
  if session_difficulty <? 1 then None
  else option_map (fun t => t / session_difficulty) (network_target j).

(** The largest target of all, difficulty one on Bitcoin's scale. *)
Definition difficulty_one_target : Z := Z.shiftl 0xffff 208.

End ShareValidatorSpec.
(** * Properties *)

Local Open Scope list_scope.

(** ** Byte order *)

Definition le_hex_twice (s : string) : option string :=
  match le_hex s with Some t => le_hex t | None => None end.

(** The digits [bytes.hex] writes: [0-9a-f]. *)
Definition is_lower_hex (c : ascii) : bool :=
  let n := N_of_ascii c in
  (((48 <=? n) && (n <=? 57)) || ((97 <=? n) && (n <=? 102)))%N.

Fixpoint all_lower_hex (s : string) : bool :=
  match s with
  | EmptyString => true
  | String c r => is_lower_hex c && all_lower_hex r
  end.

Lemma hex_digit_lower (n : N) : is_lower_hex (hex_digit n) = true.
Proof.
  unfold hex_digit.
  repeat match goal with
         | |- context [match ?x with _ => _ end] => destruct x
         end; reflexivity.
Qed.

Lemma fromhex_hex_byte (b : Byte.byte) (r : string) :
  fromhex (String (hex_digit (Byte.to_N b / 16))
                  (String (hex_digit (Byte.to_N b mod 16)) r))
  = option_map (cons b) (fromhex r).
Proof. destruct b; reflexivity. Qed.

(** Decoding undoes encoding. *)
Lemma fromhex_hex (bs : list Byte.byte) : fromhex (hex bs) = Some bs.
Proof.
  induction bs as [|b bs IH]; [reflexivity|].
  cbn [hex]. rewrite fromhex_hex_byte, IH. reflexivity.
Qed.

Lemma hex_length (bs : list Byte.byte) :
  String.length (hex bs) = (2 * List.length bs)%nat.
Proof. induction bs as [|b bs IH]; cbn [hex String.length List.length]; lia. Qed.

Lemma lower_hex_digit (c : ascii) :
  is_lower_hex c = true ->
  is_space c = false /\
  exists n, nibble c = Some n /\ hex_digit n = c /\ (n < 16)%N.
Proof.
  destruct c as [[] [] [] [] [] [] [] []]; cbv; intros H; try discriminate H;
    (split; [reflexivity|]); eexists; (split; [reflexivity|]); split;
    reflexivity.
Qed.

Lemma byte_of_nibbles_to_N (hi lo : N) :
  (hi < 16)%N -> (lo < 16)%N -> Byte.to_N (byte_of_nibbles hi lo) = (hi * 16 + lo)%N.
Proof.
  intros Hh Hl. unfold byte_of_nibbles.
  destruct (Byte.of_N (hi * 16 + lo)) as [b|] eqn:E.
  - apply Byte.to_of_N. exact E.
  - apply Byte.of_N_None_iff in E. lia.
Qed.

(** Encoding undoes decoding exactly on the text [bytes.hex] itself writes:
    lower-case digits, no white space. *)
Lemma hex_fromhex_lower (n : nat) :
  forall s bs, (String.length s <= n)%nat -> all_lower_hex s = true ->
               fromhex s = Some bs -> hex bs = s.
Proof.
  induction n as [n IH] using lt_wf_ind. intros s bs Hn Hl Hf.
  destruct s as [|c [|d r]].
  - cbn in Hf. injection Hf as <-. reflexivity.
  - cbn [all_lower_hex] in Hl. apply andb_prop in Hl as [Hc _].
    destruct (lower_hex_digit c Hc) as (Hs & hi & Hhi & _).
    cbn [fromhex] in Hf. rewrite Hs, Hhi in Hf. discriminate Hf.
  - cbn [all_lower_hex] in Hl.
    apply andb_prop in Hl as [Hc Hl]. apply andb_prop in Hl as [Hd Hl].
    destruct (lower_hex_digit c Hc) as (Hs & hi & Hhi & Hci & Hlt).
    destruct (lower_hex_digit d Hd) as (_ & lo & Hlo & Hdi & Hlt').
    cbn [fromhex] in Hf. rewrite Hs, Hhi, Hlo in Hf.
    destruct (fromhex r) as [bs'|] eqn:Er; [|discriminate Hf].
    cbn in Hf. injection Hf as <-.
    cbn [hex]. rewrite byte_of_nibbles_to_N by assumption.
    replace ((hi * 16 + lo) / 16)%N with hi
      by (apply N.div_unique with lo; lia).
    replace ((hi * 16 + lo) mod 16)%N with lo
      by (apply N.mod_unique with hi; lia).
    rewrite Hci, Hdi. do 2 f_equal.
    cbn [String.length] in Hn.
    apply (IH (String.length r)); [lia|lia|assumption|exact Er].
Qed.

Lemma le_hex_twice_decoded (s : string) (bs : list Byte.byte) :
  fromhex s = Some bs -> le_hex_twice s = Some (hex bs).
Proof.
  intros Hf. unfold le_hex_twice, le_hex. rewrite Hf. cbn [option_map].
  rewrite fromhex_hex. cbn [option_map]. rewrite rev_involutive. reflexivity.
Qed.

(** C9, as amended.  For every hexadecimal string that decodes to four
    bytes, the little-endian transform applied twice returns the lower-case
    rendering of the same four bytes (which decodes to the original value);
    it returns the original string itself whenever that string consists of
    lower-case hexadecimal digits only, the form [format(..., '08x')] and
    [bytes.hex] produce. *)
Theorem le_hex_twice_four_bytes (s : string) (bs : list Byte.byte) :
  fromhex s = Some bs -> List.length bs = 4%nat ->
  le_hex_twice s = Some (hex bs) /\
  fromhex (hex bs) = Some bs /\
  (all_lower_hex s = true -> le_hex_twice s = Some s).
Proof.
  intros Hf _. split; [|split].
  - apply le_hex_twice_decoded, Hf.
  - apply fromhex_hex.
  - intros Hl. rewrite (le_hex_twice_decoded s bs Hf). f_equal.
    apply (hex_fromhex_lower (String.length s)); auto.
Qed.

Lemma le_hex_twice_four_bytes_witness :
  le_hex_twice "1d00ffff" = Some "1d00ffff".
Proof.
  refine (proj2 (proj2 (le_hex_twice_four_bytes "1d00ffff"
            [Byte.x1d; Byte.x00; Byte.xff; Byte.xff] _ _)) _); reflexivity.
Defined.

(** C9, as stated, fails on upper-case input: [bytes.fromhex] reads
    ["1D00FFFF"] as four bytes, and two applications of the transform give
    back ["1d00ffff"], a different string. *)
Lemma le_hex_twice_upper_case :
  fromhex "1D00FFFF" = Some [Byte.x1d; Byte.x00; Byte.xff; Byte.xff] /\
  le_hex "1D00FFFF" = Some "ffff001d" /\
  le_hex_twice "1D00FFFF" = Some "1d00ffff" /\
  le_hex_twice "1D00FFFF" <> Some "1D00FFFF".
Proof. repeat split; try reflexivity. discriminate. Qed.

(** ** Frame reasoning

    [pres R m]: running [m] takes every state to an [R]-related one, whether
    [m] returns or raises.  For a reflexive and transitive [R] this is
    compositional, and what a handler preserves follows from what the
    assignments in it preserve. *)

Definition pres {A} (R : state -> state -> Prop) (m : M A) : Prop :=
  forall s, R s (exec m s).

(** Whether the write [send_to_client] is about to make will succeed. *)
Definition send_ok (W : world) (s : state) (c : ref) : bool :=
  negb (socket_closed (client_of s c) || sendall_fails W (tick s)).

Section Frame.

Variable W : world.
Variable R : state -> state -> Prop.
(** The messages [R] lets a computation put on the wire. *)
Variable P : wire_event -> Prop.

Hypothesis R_refl : forall s, R s s.
Hypothesis R_trans : forall a b c, R a b -> R b c -> R a c.

Lemma pres_ret {A} (a : A) : pres R (ret a).
Proof. intros s. apply R_refl. Qed.

Lemma pres_raise {A} (e : exn) : pres R (@raise A e).
Proof. intros s. apply R_refl. Qed.

Lemma pres_lift {A} (r : res A) : pres R (lift r).
Proof. intros s. apply R_refl. Qed.

Lemma pres_gets {A} (f : state -> A) : pres R (gets f).
Proof. intros s. apply R_refl. Qed.

Lemma pres_modify (f : state -> state) : (forall s, R s (f s)) -> pres R (modify f).
Proof. intros H s. apply H. Qed.

Lemma pres_bind {A B} (m : M A) (k : A -> M B) :
  pres R m -> (forall a, pres R (k a)) -> pres R (bind m k).
Proof.
  intros Hm Hk s. specialize (Hm s). unfold exec, bind in *.
  destruct (m s) as [[e|a] s']; cbn in *; [exact Hm|].
  eapply R_trans; [exact Hm|]. apply Hk.
Qed.

Lemma pres_catch {A} (m : M A) (h : exn -> M A) :
  pres R m -> (forall e, pres R (h e)) -> pres R (catch m h).
Proof.
  intros Hm Hh s. specialize (Hm s). unfold exec, catch in *.
  destruct (m s) as [[e|a] s']; cbn in *; [|exact Hm].
  eapply R_trans; [exact Hm|]. apply Hh.
Qed.

Lemma pres_when (b : bool) (m : M unit) : pres R m -> pres R (when b m).
Proof. intros H. destruct b; [exact H|apply pres_ret]. Qed.

(** What the input/output layer assigns: the oracle counter, the two
    traces, a socket's closed flag, the [clients] list on removal. *)
Hypothesis R_tick : forall n s, R s (set_tick n s).
Hypothesis R_wire : forall e s, P e -> R s (set_wire (wire s ++ [e]) s).
Hypothesis R_log : forall e s, R s (set_log (log s ++ [e]) s).
Hypothesis R_close :
  forall c s, R s (set_heap (<[c := closed_client (client_of s c)]> (heap s)) s).
Hypothesis R_remove : forall c s, R s (set_clients (remove_first c (clients s)) s).

Lemma pres_next_tick : pres R next_tick.
Proof. intros s. apply R_tick. Qed.

Lemma pres_logger l r : pres R (logger l r).
Proof. apply pres_modify. intros s. apply R_log. Qed.

Lemma pres_log_all rs : pres R (log_all rs).
Proof.
  induction rs as [|[l r] rs IH]; cbn [log_all]; [apply pres_ret|].
  apply pres_bind; [apply pres_logger|intros _; exact IH].
Qed.

Lemma pres_time_time : pres R (time_time W).
Proof. apply pres_bind; [apply pres_next_tick|intros; apply pres_ret]. Qed.

Lemma pres_random_choice : pres R (random_choice W).
Proof. apply pres_bind; [apply pres_next_tick|intros; apply pres_ret]. Qed.

Lemma pres_random_hex n : pres R (random_hex W n).
Proof.
  induction n as [|n IH]; cbn [random_hex]; [apply pres_ret|].
  apply pres_bind; [apply pres_random_choice|intros c].
  apply pres_bind; [exact IH|intros; apply pres_ret].
Qed.

Lemma pres_random_below_tenth : pres R (random_below_tenth W).
Proof. apply pres_bind; [apply pres_next_tick|intros; apply pres_ret]. Qed.

Lemma pres_remove_client c : pres R (remove_client c).
Proof.
  apply pres_bind; [apply pres_gets|intros cs]. apply pres_when.
  apply pres_bind; [apply pres_modify; intros s; apply R_close|intros _].
  apply pres_bind; [apply pres_modify; intros s; apply R_remove|intros _].
  apply pres_bind; [apply pres_gets|intros a]. apply pres_logger.
Qed.

Lemma pres_send_to_client c d :
  (forall ok, P (Wire c d ok)) -> pres R (send_to_client W c d).
Proof.
  intros HP.
  apply pres_bind; [apply pres_next_tick|intros t].
  apply pres_bind; [apply pres_gets|intros closed].
  apply pres_bind; [apply pres_modify; intros s; apply R_wire, HP|intros _].
  destruct (negb _); [apply pres_ret|].
  apply pres_bind; [apply pres_logger|intros _]. apply pres_remove_client.
Qed.

Hypothesis P_job :
  forall c job p v b t ok, P (Wire c (job_notification job p v b t) ok).

(** One step, chosen by the shape of the computation; [known] is asked
    first, for the calls a lemma already covers. *)
Ltac pres_with known :=
  repeat first
    [ known
    | lazymatch goal with
      | |- pres _ (ret _) => apply pres_ret
      | |- pres _ (lift _) => apply pres_lift
      | |- pres _ (gets _) => apply pres_gets
      | |- pres _ (logger _ _) => apply pres_logger
      | |- pres _ (time_time _) => apply pres_time_time
      | |- pres _ next_tick => apply pres_next_tick
      | |- pres _ (random_below_tenth _) => apply pres_random_below_tenth
      | |- pres _ (send_to_client _ _ _) => apply pres_send_to_client; solve [auto]
      | |- pres _ (modify _) => apply pres_modify; solve [auto]
      | |- pres _ (when _ _) => apply pres_when
      | |- pres _ (bind _ _) => apply pres_bind; [|intros ?]
      | |- pres _ (if ?b then _ else _) => destruct b
      end ].

Ltac pres_steps := pres_with fail.

Lemma pres_send_job c : pres R (send_job W c).
Proof. unfold send_job. pres_steps. Qed.

Lemma pres_notify_loop fuel : forall i, pres R (notify_loop W fuel i).
Proof.
  induction fuel as [|fuel IH]; intros i; cbn [notify_loop]; [apply pres_ret|].
  apply pres_bind; [apply pres_gets|intros cs].
  destruct (nth_error cs i) as [c|]; [|apply pres_ret].
  apply pres_bind; [apply pres_gets|intros u].
  apply pres_bind; [apply pres_when, pres_send_job|intros _]. apply IH.
Qed.

(** What [get_block_template] assigns on top of that. *)
Hypothesis R_rpc :
  forall p s, R s (set_rpc_calls (rpc_calls s ++ [("getblocktemplate", p)]) s).
Hypothesis R_block : forall x s, R s (set_current_block x s).
Hypothesis R_txs : forall x s, R s (set_current_transactions x s).
Hypothesis R_job : forall s, R s (set_job_id (job_id s + 1) s).

Lemma pres_bitcoin_rpc p : pres R (bitcoin_rpc W "getblocktemplate" p).
Proof.
  unfold bitcoin_rpc.
  apply pres_bind; [apply pres_next_tick|intros t].
  apply pres_bind; [apply pres_modify; intros s; apply R_rpc|intros _].
  apply pres_bind; [apply pres_log_all|intros _]. apply pres_ret.
Qed.

Lemma pres_get_block_template : pres R (get_block_template W).
Proof.
  unfold get_block_template.
  pres_with ltac:(idtac; lazymatch goal with
                  | |- pres _ (notify_loop _ _ _) => apply pres_notify_loop
                  | |- pres _ (bitcoin_rpc _ _ _) => apply pres_bitcoin_rpc
                  end).
Qed.

Lemma pres_handle_submit c i w j e n t :
  (forall ok, P (Wire c (response i (JBool true)) ok)) ->
  pres R (handle_submit W c i w j e n t).
Proof.
  intros HP. unfold handle_submit.
  pres_with ltac:(idtac; lazymatch goal with
                  | |- pres _ (get_block_template _) => apply pres_get_block_template
                  end).
Qed.

(** The remaining handlers answer with messages of their own and assign the
    user name, the difficulty and [extranonce1]. *)
Hypothesis P_any : forall e, P e.
Hypothesis R_user :
  forall c u s, R s (set_heap (<[c := renamed_client u (client_of s c)]> (heap s)) s).
Hypothesis R_difficulty : forall x s, R s (set_difficulty x s).
Hypothesis R_subscribe : forall c i, pres R (handle_subscribe W c i).
Hypothesis R_accept : forall a, pres R (accept_client a).

Lemma pres_handle_configure c i p : pres R (handle_configure W c i p).
Proof. unfold handle_configure. pres_steps. Qed.

Lemma pres_handle_authorize c i u p : pres R (handle_authorize W c i u p).
Proof.
  unfold handle_authorize, set_username.
  pres_with ltac:(idtac; lazymatch goal with
                  | |- pres _ (get_block_template _) => apply pres_get_block_template
                  | |- pres _ (send_job _ _) => apply pres_send_job
                  end).
Qed.

(** Every branch of the dispatcher but the one for
    [mining.suggest_difficulty]. *)
Lemma pres_route_other c method i p :
  eq_str method "mining.suggest_difficulty" = false ->
  pres R (route W c method i p).
Proof.
  intros H. unfold route. rewrite H.
  pres_with ltac:(idtac; lazymatch goal with
                  | |- pres _ (handle_subscribe _ _ _) => apply R_subscribe
                  | |- pres _ (handle_authorize _ _ _ _ _) => apply pres_handle_authorize
                  | |- pres _ (handle_submit _ _ _ _ _ _ _ _) =>
                      apply pres_handle_submit; solve [auto]
                  | |- pres _ (handle_configure _ _ _ _) => apply pres_handle_configure
                  end).
Qed.

Lemma pres_handle_suggest_difficulty c i p :
  pres R (handle_suggest_difficulty W c i p).
Proof. unfold handle_suggest_difficulty. pres_steps. Qed.

Lemma pres_dispatch c message : pres R (dispatch W c message).
Proof.
  unfold dispatch, route.
  pres_with ltac:(idtac; lazymatch goal with
                  | |- pres _ (handle_subscribe _ _ _) => apply R_subscribe
                  | |- pres _ (handle_authorize _ _ _ _ _) => apply pres_handle_authorize
                  | |- pres _ (handle_submit _ _ _ _ _ _ _ _) =>
                      apply pres_handle_submit; solve [auto]
                  | |- pres _ (handle_configure _ _ _ _) => apply pres_handle_configure
                  | |- pres _ (handle_suggest_difficulty _ _ _ _) =>
                      apply pres_handle_suggest_difficulty
                  end).
Qed.

Lemma pres_handle_line c decoded : pres R (handle_line W c decoded).
Proof.
  unfold handle_line. apply pres_catch.
  - apply pres_bind; [apply pres_lift|intros m; apply pres_dispatch].
  - intros e. apply pres_bind; [apply pres_gets|intros a].
    destruct e; apply pres_logger.
Qed.

Lemma pres_run_event ev : pres R (run_event W ev).
Proof.
  destruct ev as [a|c d|c|]; cbn [run_event].
  - apply pres_bind; [apply R_accept|intros; apply pres_ret].
  - apply pres_handle_line.
  - apply pres_remove_client.
  - apply pres_bind; [apply pres_get_block_template|intros; apply pres_ret].
Qed.

Lemma pres_run_events evs : forall s, R s (run_events W evs s).
Proof.
  induction evs as [|ev evs IH]; intros s; cbn [run_events fold_left].
  - apply R_refl.
  - eapply R_trans; [apply pres_run_event|]. apply IH.
Qed.

End Frame.

(** ** What single steps do *)

Lemma exec_bind {A B} (m : M A) (k : A -> M B) (s : state) :
  exec (bind m k) s
  = match m s with
    | (inr a, s') => exec (k a) s'
    | (inl _, s') => s'
    end.
Proof. unfold exec, bind. destruct (m s) as [[e|a] s']; reflexivity. Qed.

(** The characters [random_hex] draws, starting at oracle position [t]. *)
Fixpoint random_string (W : world) (n t : nat) : string :=
  match n with
  | O => EmptyString
  | S n' => String (hex_digit (N.of_nat (rand_index W t mod 16)))
                   (random_string W n' (S t))
  end.

Lemma random_string_length W n : forall t, String.length (random_string W n t) = n.
Proof. induction n as [|n IH]; intros t; cbn; [reflexivity|]. now rewrite IH. Qed.

Lemma random_string_lower W n : forall t, all_lower_hex (random_string W n t) = true.
Proof.
  induction n as [|n IH]; intros t; cbn [random_string all_lower_hex];
    [reflexivity|]. now rewrite hex_digit_lower, IH.
Qed.

Lemma random_hex_run W n :
  forall s, random_hex W n s
            = (inr (random_string W n (tick s)), set_tick (n + tick s) s).
Proof.
  induction n as [|n IH]; intros s.
  - destruct s; reflexivity.
  - cbn [random_hex random_string]. unfold bind at 1. unfold random_choice.
    unfold bind at 1. unfold next_tick, ret. unfold bind. rewrite IH.
    cbn. replace (n + S (tick s))%nat with (S (n + tick s)) by lia.
    reflexivity.
Qed.

Lemma log_all_run rs :
  forall s, log_all rs s = (inr tt, set_log (log s ++ rs) s).
Proof.
  induction rs as [|[l r] rs IH]; intros s; cbn [log_all].
  - unfold ret. rewrite app_nil_r. destruct s; reflexivity.
  - unfold bind, logger, modify. rewrite IH. cbn [log set_log].
    rewrite <- app_assoc. reflexivity.
Qed.

(** One call of [bitcoin_rpc]: the call is recorded, the records of the
    exchange are logged, the value is returned; nothing is raised. *)
Lemma bitcoin_rpc_run W method params s :
  bitcoin_rpc W method params s
  = (inr (node W (tick s) method params),
     set_log (log s ++ node_log W (tick s) method params)
       (set_rpc_calls (rpc_calls s ++ [(method, params)])
          (set_tick (S (tick s)) s))).
Proof.
  unfold bitcoin_rpc. unfold bind at 1. unfold next_tick at 1.
  unfold bind at 1. unfold modify at 1.
  unfold bind at 1. rewrite log_all_run. reflexivity.
Qed.

Ltac case_if :=
  match goal with |- context [if ?b then _ else _] => destruct b end.

Section Steps.

Variable W : world.

Lemma send_to_client_returns c d s : outcome (send_to_client W c d) s = inr tt.
Proof.
  unfold outcome, send_to_client, remove_client, close_socket, logger, when,
    bind, next_tick, gets, modify, ret. cbn.
  destruct (negb _); cbn; [reflexivity|]. case_if; reflexivity.
Qed.

Lemma send_to_client_wire c d s :
  wire (exec (send_to_client W c d) s) = wire s ++ [Wire c d (send_ok W s c)].
Proof.
  unfold exec, send_ok, send_to_client, remove_client, close_socket, logger, when,
    bind, next_tick, gets, modify, ret. cbn.
  destruct (negb _); cbn; [reflexivity|]. case_if; reflexivity.
Qed.

(** A write that succeeds leaves everything but the traces alone: the
    client stays registered and its socket stays open. *)
Lemma send_to_client_delivered c d s :
  send_ok W s c = true ->
  exec (send_to_client W c d) s
  = set_wire (wire s ++ [Wire c d true]) (set_tick (S (tick s)) s).
Proof.
  unfold exec, send_ok, send_to_client, bind, next_tick, gets, modify, ret.
  cbn -[negb orb].
  change (client_of (set_tick (S (tick s)) s) c) with (client_of s c).
  intros ->. reflexivity.
Qed.

Lemma send_to_client_run c d s :
  send_to_client W c d s = (inr tt, exec (send_to_client W c d) s).
Proof.
  pose proof (send_to_client_returns c d s) as H. unfold outcome, exec in *.
  destruct (send_to_client W c d s) as [r s']. cbn in *. now subst.
Qed.

(** [handle_subscribe] answers with the process-wide [extranonce1]: the one
    already stored when there is one, a freshly drawn one otherwise. *)
Definition subscribed_extranonce (s : state) : string :=
  match extranonce1 s with
  | Some e => if negb (String.eqb e "") then e else random_string W 8 (tick s)
  | None => random_string W 8 (tick s)
  end.

Definition is_set (o : option string) : bool :=
  match o with Some e => negb (String.eqb e "") | None => false end.

Lemma handle_subscribe_run c i s :
  handle_subscribe W c i s
  = send_to_client W c (response i (subscribe_result (subscribed_extranonce s)))
      (if is_set (extranonce1 s) then s
       else set_extranonce1 (Some (random_string W 8 (tick s)))
                            (set_tick (8 + tick s) s)).
Proof.
  unfold handle_subscribe, subscribed_extranonce, is_set.
  unfold bind at 1. unfold gets at 1.
  destruct (extranonce1 s) as [e|] eqn:E.
  - destruct (negb (e =? "")%string) eqn:N.
    + unfold bind at 1. unfold ret at 1. reflexivity.
    + unfold bind at 1. unfold bind at 1. rewrite random_hex_run.
      unfold bind at 1. unfold modify at 1. unfold ret. reflexivity.
  - unfold bind at 1. unfold bind at 1. rewrite random_hex_run.
    unfold bind at 1. unfold modify at 1. unfold ret. reflexivity.
Qed.

End Steps.

(** ** Three preserved relations *)

(** A [mining.notify] message, whatever its fields. *)
Definition is_notify (ev : wire_event) : Prop :=
  exists job p v b t, w_data ev = job_notification job p v b t.

(** [emits P s s']: from [s] to [s'] the wire gained only messages satisfying
    [P], and the node was asked for nothing but [getblocktemplate]. *)
Definition emits (P : wire_event -> Prop) (s s' : state) : Prop :=
  exists evs calls,
    wire s' = wire s ++ evs /\ Forall P evs /\
    rpc_calls s' = rpc_calls s ++ calls /\
    Forall (fun call => fst call = "getblocktemplate") calls.

(** [io_only s s']: only input/output happened; the module's globals and the
    clients' user names are what they were. *)
Definition io_only (s s' : state) : Prop :=
  difficulty s' = difficulty s /\ job_id s' = job_id s /\
  current_block s' = current_block s /\
  current_transactions s' = current_transactions s /\
  extranonce1 s' = extranonce1 s /\ rpc_calls s' = rpc_calls s /\
  (forall x, username (client_of s' x) = username (client_of s x)) /\
  (exists l, log s' = log s ++ l).

(** [extranonce_kept s s']: an [extranonce1] that is set stays as it is. *)
Definition extranonce_kept (s s' : state) : Prop :=
  forall e, extranonce1 s = Some e -> e <> "" -> extranonce1 s' = Some e.

Lemma emits_refl P s : emits P s s.
Proof. exists [], []. rewrite !app_nil_r. auto. Qed.

Lemma emits_trans P a b c : emits P a b -> emits P b c -> emits P a c.
Proof.
  intros (e1 & c1 & Hw1 & He1 & Hc1 & Hg1) (e2 & c2 & Hw2 & He2 & Hc2 & Hg2).
  exists (e1 ++ e2), (c1 ++ c2).
  rewrite Hw2, Hw1, Hc2, Hc1, <- !app_assoc.
  repeat split; auto; apply Forall_app; auto.
Qed.

Lemma emits_same P s s' :
  wire s' = wire s -> rpc_calls s' = rpc_calls s -> emits P s s'.
Proof. intros Hw Hc. exists [], []. rewrite !app_nil_r. auto. Qed.

Lemma io_only_refl s : io_only s s.
Proof. unfold io_only. repeat apply conj; auto. exists []. now rewrite app_nil_r. Qed.

Lemma io_only_trans a b c : io_only a b -> io_only b c -> io_only a c.
Proof.
  unfold io_only.
  intros (H1 & H2 & H3 & H4 & H5 & H6 & H7 & l1 & H8)
         (G1 & G2 & G3 & G4 & G5 & G6 & G7 & l2 & G8).
  repeat apply conj; try congruence.
  all: match goal with
       | |- forall _, _ => intros x; rewrite G7; apply H7
       | |- _ => exists (l1 ++ l2); rewrite G8, H8, <- app_assoc; reflexivity
       end.
Qed.

Lemma client_of_closed c s x :
  username (client_of (set_heap (<[c := closed_client (client_of s c)]> (heap s)) s) x)
  = username (client_of s x).
Proof.
  unfold client_of. cbn [heap set_heap].
  destruct (decide (c = x)) as [->|Hne].
  - rewrite lookup_insert_eq. reflexivity.
  - rewrite lookup_insert_ne by exact Hne. reflexivity.
Qed.

Ltac io_only_field :=
  unfold io_only;
  cbn [difficulty job_id current_block current_transactions extranonce1
       rpc_calls log set_heap set_tick set_wire set_log set_clients];
  repeat apply conj; auto;
  first [ intros ?; apply client_of_closed
        | eexists; symmetry; apply app_nil_r
        | eexists; reflexivity ].

Ltac io_only_side :=
  first [ exact io_only_refl | exact io_only_trans
        | intros; exact I | intros; io_only_field ].

Section Preserved.

Variable W : world.

Let any_event (ev : wire_event) : Prop := True.

Lemma io_only_send_to_client c d : pres io_only (send_to_client W c d).
Proof.
  apply (pres_send_to_client W io_only any_event);
    io_only_side.
Qed.

Lemma io_only_notify_loop fuel i : pres io_only (notify_loop W fuel i).
Proof.
  apply (pres_notify_loop W io_only any_event);
    io_only_side.
Qed.

Lemma io_only_send_job c : pres io_only (send_job W c).
Proof.
  apply (pres_send_job W io_only any_event);
    io_only_side.
Qed.

Ltac emits_field :=
  first
    [ exact (emits_refl _) | exact (emits_trans _)
    | intros; apply emits_same; reflexivity ].

Lemma emits_wire P e s : P e -> emits P s (set_wire (wire s ++ [e]) s).
Proof.
  intros H. exists [e], []. cbn. rewrite app_nil_r. repeat split; auto.
Qed.

Lemma emits_rpc P p s :
  emits P s (set_rpc_calls (rpc_calls s ++ [("getblocktemplate", p)]) s).
Proof.
  exists [], [("getblocktemplate", p)]. cbn. rewrite app_nil_r. repeat split; auto.
Qed.

Lemma is_notify_job c job p v b t ok :
  is_notify (Wire c (job_notification job p v b t) ok).
Proof. unfold is_notify. cbn. eauto 6. Qed.

(** A refresh puts only job notifications on the wire and asks the node only
    for a template. *)
Lemma emits_get_block_template : pres (emits is_notify) (get_block_template W).
Proof.
  apply (pres_get_block_template W (emits is_notify) is_notify);
    try solve [emits_field].
  - intros e s. apply emits_wire.
  - apply is_notify_job.
  - intros. apply emits_rpc.
Qed.

End Preserved.

(** ** The dispatcher *)

(** A world in which the node is unreachable ([bitcoin_rpc] returns [None]),
    every socket write succeeds and the random refresh never fires. *)
Definition quiet_world : world :=
  {| http := fun _ _ _ => Refused;
     clock := fun _ => 1700000000;
     rand_index := fun n => n;
     rand_below_tenth := fun _ => false;
     sendall_fails := fun _ => false;
     float_of_str := fun _ => None |}.

(** The process right after one client has connected: it has neither
    subscribed nor authorized. *)
Definition one_client : state :=
  exec (accept_client ("10.0.0.1", 40000)) initial.

(** A request as [json.loads] decodes it. *)
Definition request (msg_id : json) (method : string) (params : json) : json :=
  JObj [("id", msg_id); ("method", JStr method); ("params", params)].

(** The methods [handle_client] has a branch for. *)
Definition recognized (method : json) : bool :=
  eq_str method "mining.subscribe" || eq_str method "mining.authorize" ||
  eq_str method "mining.submit" || eq_str method "mining.configure" ||
  eq_str method "mining.suggest_difficulty".

Section Dispatch.

Variable W : world.

Lemma dispatch_route (c : ref) (message method msg_id params : json) (s : state) :
  dict_get message "method" (JStr "") = inr method ->
  dict_get message "id" (JInt 0) = inr msg_id ->
  dict_get message "params" (JArr []) = inr params ->
  dispatch W c message s = route W c method msg_id params s.
Proof.
  intros Hm Hi Hp. unfold dispatch, bind, lift. rewrite Hm, Hi, Hp. reflexivity.
Qed.

(** A message that has one of the fields is a dictionary and has them all
    (by default if need be). *)
Lemma dict_get_total (message : json) (k : string) (d v : json) :
  dict_get message k d = inr v ->
  forall k' d', exists v', dict_get message k' d' = inr v'.
Proof.
  destruct message; try discriminate. intros _ k' d'. cbn. eauto.
Qed.

(** A line whose handling raises nothing is handled as [dispatch] does. *)
Lemma handle_line_returns (c : ref) (message : json) (s s' : state) :
  dispatch W c message s = (inr tt, s') ->
  handle_line W c (inr message) s = (inr tt, s').
Proof.
  intros H. unfold handle_line, catch. unfold bind at 1. unfold lift at 1.
  rewrite H. reflexivity.
Qed.

(** C10.  A [mining.authorize] request with fewer than two params and a
    [mining.submit] request with fewer than five are dropped: handling the
    line returns normally and leaves the whole state as it was, so no handler
    ran (nothing was logged), nothing was written to any socket, and the
    client is still registered with its socket open. *)
Theorem short_params_dropped (c : ref) (message params : json) (n : nat) (s : state) :
  dict_get message "params" (JArr []) = inr params ->
  py_len params = inr n ->
  (dict_get message "method" (JStr "") = inr (JStr "mining.authorize") /\ (n < 2)%nat) \/
  (dict_get message "method" (JStr "") = inr (JStr "mining.submit") /\ (n < 5)%nat) ->
  dispatch W c message s = (inr tt, s) /\
  handle_line W c (inr message) s = (inr tt, s).
Proof.
  intros Hp Hn Hm.
  destruct (dict_get_total _ _ _ _ Hp "id" (JInt 0)) as [msg_id Hi].
  assert (Hd : dispatch W c message s = (inr tt, s)).
  { destruct Hm as [[Hm Hlt]|[Hm Hlt]];
      rewrite (dispatch_route c message _ msg_id params s Hm Hi Hp);
      unfold route; cbn [eq_str String.eqb Ascii.eqb Bool.eqb];
      unfold bind, lift; rewrite Hn.
    - destruct (Nat.leb_spec 2 n); [lia|reflexivity].
    - destruct (Nat.leb_spec 5 n); [lia|reflexivity]. }
  split; [exact Hd|]. apply handle_line_returns, Hd.
Qed.

End Dispatch.

Lemma short_params_dropped_witness :
  handle_line quiet_world 0%nat
    (inr (request (JInt 2) "mining.authorize" (JArr [JStr "worker"]))) one_client
  = (inr tt, one_client) /\
  handle_line quiet_world 0%nat
    (inr (request (JInt 4) "mining.submit"
            (JArr [JStr "worker"; JStr "1"; JStr "00000000"; JStr "6553f100"])))
    one_client
  = (inr tt, one_client).
Proof.
  split.
  - refine (proj2 (short_params_dropped quiet_world 0%nat _ (JArr [JStr "worker"])
                     1%nat one_client _ _ _)); [reflexivity|reflexivity|].
    left. split; [reflexivity|]. apply Nat.lt_succ_diag_r.
  - refine (proj2 (short_params_dropped quiet_world 0%nat _
                     (JArr [JStr "worker"; JStr "1"; JStr "00000000"; JStr "6553f100"])
                     4%nat one_client _ _ _)); [reflexivity|reflexivity|].
    right. split; [reflexivity|]. apply Nat.lt_succ_diag_r.
Defined.

(** ** What the handlers answer *)

Section Answers.

Variable W : world.

(** C6, as amended.  For every message whose method is none of the five
    recognized ones, the dispatcher logs a warning and answers with a success
    result ([result] true, [error] null); handling the line raises nothing,
    and when the write succeeds the client stays registered and its socket
    stays open. *)
Theorem unknown_method_answered_with_success
    (c : ref) (message method msg_id : json) (s : state) :
  dict_get message "method" (JStr "") = inr method ->
  dict_get message "id" (JInt 0) = inr msg_id ->
  recognized method = false ->
  let s' := exec (handle_line W c (inr message)) s in
  outcome (handle_line W c (inr message)) s = inr tt /\
  wire s' = wire s ++ [Wire c (response msg_id (JBool true)) (send_ok W s c)] /\
  (send_ok W s c = true ->
   clients s' = clients s /\ heap s' = heap s /\
   log s' = log s ++ [(WARNING, UnknownMethod (address (client_of s c)) method)]).
Proof.
  intros Hm Hi Hr.
  destruct (dict_get_total _ _ _ _ Hm "params" (JArr [])) as [params Hp].
  unfold recognized in Hr. rewrite !orb_false_iff in Hr.
  destruct Hr as [[[[H1 H2] H3] H4] H5].
  set (s1 := set_log (log s ++ [(WARNING, UnknownMethod (address (client_of s c)) method)]) s).
  assert (Hd : dispatch W c message s
               = send_to_client W c (response msg_id (JBool true)) s1).
  { rewrite (dispatch_route W c message method msg_id params s Hm Hi Hp).
    unfold route. rewrite H1, H2, H3, H4, H5. reflexivity. }
  assert (Hl : handle_line W c (inr message) s
               = (inr tt, exec (send_to_client W c (response msg_id (JBool true))) s1)).
  { apply handle_line_returns. rewrite Hd. apply send_to_client_run. }
  assert (He : exec (handle_line W c (inr message)) s
               = exec (send_to_client W c (response msg_id (JBool true))) s1)
    by (unfold exec at 1; rewrite Hl; reflexivity).
  cbv zeta. rewrite He. unfold outcome. rewrite Hl. cbn [fst].
  split; [reflexivity|]. split.
  - rewrite send_to_client_wire. reflexivity.
  - intros Hok. rewrite send_to_client_delivered by exact Hok. auto.
Qed.

(** Where [handle_submit] gets to, whoever the client is. *)
Lemma handle_submit_wire (c : ref) (msg_id worker job e2 ntime nonce : json) (s : state) :
  emits is_notify
    (exec (send_to_client W c (response msg_id (JBool true)))
          (set_log (log s ++ [(INFO, ShareSubmitted worker job nonce)]) s))
    (exec (handle_submit W c msg_id worker job e2 ntime nonce) s).
Proof.
  unfold handle_submit. rewrite exec_bind. unfold logger at 1, modify at 1.
  rewrite exec_bind, send_to_client_run.
  set (s2 := exec (send_to_client W c _) _).
  assert (H : pres (emits is_notify)
                (logger INFO (ShareAccepted worker) ;;
                 r <- random_below_tenth W ;;
                 if r then (_ <- get_block_template W ;; ret tt) else ret tt)).
  { apply pres_bind; [apply emits_trans| |intros _].
    { apply pres_modify. intros x. apply emits_same; reflexivity. }
    apply pres_bind; [apply emits_trans| |intros r].
    { apply pres_bind; [apply emits_trans| |intros t; apply pres_ret, emits_refl].
      intros x. apply emits_same; reflexivity. }
    destruct r; [|apply pres_ret, emits_refl].
    apply pres_bind; [apply emits_trans|apply emits_get_block_template|].
    intros t. apply pres_ret, emits_refl. }
  apply H.
Qed.

(** C1, as amended.  Every share handed to [handle_submit] is answered
    Accepted ([result] true, [error] null), whatever its header hash, the
    target, the job it names and the template in force: nothing in the
    arguments or the state is compared.  After that answer the only messages
    written are job notifications, and the only upstream call the handler
    may make is [getblocktemplate]: no share is ever submitted upstream. *)
Theorem handle_submit_always_accepts
    (c : ref) (msg_id worker job e2 ntime nonce : json) (s : state) :
  let s' := exec (handle_submit W c msg_id worker job e2 ntime nonce) s in
  exists later calls,
    wire s' = wire s ++ Wire c (response msg_id (JBool true)) (send_ok W s c) :: later /\
    Forall is_notify later /\
    rpc_calls s' = rpc_calls s ++ calls /\
    Forall (fun call => fst call = "getblocktemplate") calls.
Proof.
  cbv zeta.
  destruct (handle_submit_wire c msg_id worker job e2 ntime nonce s)
    as (later & calls & Hw & Hn & Hc & Hg).
  exists later, calls. rewrite Hw, Hc, send_to_client_wire.
  pose proof (io_only_send_to_client W c (response msg_id (JBool true))
                (set_log (log s ++ [(INFO, ShareSubmitted worker job nonce)]) s))
    as (_ & _ & _ & _ & _ & Hr & _).
  rewrite Hr. cbn [wire rpc_calls set_log]. rewrite <- app_assoc.
  repeat apply conj; auto.
Qed.

(** C2, as amended.  A [mining.submit] request with at least five params is
    routed to [handle_submit] whatever the session's authorization state (the
    stored user name is never read), and is answered Accepted, not
    Unauthorized. *)
Theorem submit_routed_without_authorization
    (c : ref) (message msg_id params p0 p1 p2 p3 p4 : json) (n : nat) (s : state) :
  dict_get message "method" (JStr "") = inr (JStr "mining.submit") ->
  dict_get message "id" (JInt 0) = inr msg_id ->
  dict_get message "params" (JArr []) = inr params ->
  py_len params = inr n -> (5 <= n)%nat ->
  py_index params 0 = inr p0 -> py_index params 1 = inr p1 ->
  py_index params 2 = inr p2 -> py_index params 3 = inr p3 ->
  py_index params 4 = inr p4 ->
  dispatch W c message s = handle_submit W c msg_id p0 p1 p2 p3 p4 s /\
  exists later,
    wire (exec (dispatch W c message) s)
    = wire s ++ Wire c (response msg_id (JBool true)) (send_ok W s c) :: later.
Proof.
  intros Hm Hi Hp Hn Hle H0 H1 H2 H3 H4.
  assert (Hd : dispatch W c message s = handle_submit W c msg_id p0 p1 p2 p3 p4 s).
  { rewrite (dispatch_route W c message _ msg_id params s Hm Hi Hp).
    unfold route. cbn [eq_str String.eqb Ascii.eqb Bool.eqb].
    unfold bind at 1. unfold lift at 1. rewrite Hn.
    destruct (Nat.leb_spec 5 n); [|lia].
    unfold bind at 1. unfold lift at 1. rewrite H0.
    unfold bind at 1. unfold lift at 1. rewrite H1.
    unfold bind at 1. unfold lift at 1. rewrite H2.
    unfold bind at 1. unfold lift at 1. rewrite H3.
    unfold bind at 1. unfold lift at 1. rewrite H4. reflexivity. }
  split; [exact Hd|].
  destruct (handle_submit_wire c msg_id p0 p1 p2 p3 p4 s)
    as (later & calls & Hw & _).
  exists later. unfold exec at 1. rewrite Hd.
  fold (exec (handle_submit W c msg_id p0 p1 p2 p3 p4) s).
  rewrite Hw, send_to_client_wire. cbn [wire set_log].
  rewrite <- app_assoc. reflexivity.
Qed.

End Answers.

(** ** Concrete runs of the dispatcher *)

Definition unknown_request : json :=
  request (JInt 7) "mining.extranonce.subscribe" (JArr []).

Definition submit_request : json :=
  request (JInt 4) "mining.submit"
    (JArr [JStr "worker"; JStr "1"; JStr "00000000"; JStr "6553f100"; JStr "1dac2b7c"]).

Lemma unknown_method_answered_with_success_witness :
  wire (exec (handle_line quiet_world 0%nat (inr unknown_request)) one_client)
  = wire one_client ++ [Wire 0%nat (response (JInt 7) (JBool true)) true] /\
  clients (exec (handle_line quiet_world 0%nat (inr unknown_request)) one_client)
  = clients one_client.
Proof.
  pose proof (unknown_method_answered_with_success quiet_world 0%nat unknown_request
                (JStr "mining.extranonce.subscribe") (JInt 7) one_client
                eq_refl eq_refl eq_refl) as H.
  cbv zeta in H. destruct H as (_ & Hw & Hk).
  split; [exact Hw|]. exact (proj1 (Hk eq_refl)).
Defined.

(** C6, as stated, fails: the answer to an unrecognized method
    ([mining.extranonce.subscribe] here) is the success response, with
    [result] true and no error. *)
Lemma unknown_method_gets_no_error :
  exists answer,
    wire (exec (handle_line quiet_world 0%nat (inr unknown_request)) one_client)
    = [Wire 0%nat answer true] /\
    dict_get answer "result" JNull = inr (JBool true) /\
    dict_get answer "error" (JStr "absent") = inr JNull.
Proof. eexists. repeat apply conj; vm_compute; reflexivity. Qed.

Lemma submit_routed_without_authorization_witness :
  username (client_of one_client 0%nat) = JNull /\
  exists later,
    wire (exec (dispatch quiet_world 0%nat submit_request) one_client)
    = wire one_client ++ Wire 0%nat (response (JInt 4) (JBool true)) true :: later.
Proof.
  split; [reflexivity|].
  exact (proj2 (submit_routed_without_authorization quiet_world 0%nat submit_request
                  (JInt 4) _ _ _ _ _ _ 5%nat one_client
                  eq_refl eq_refl eq_refl eq_refl (le_n 5)
                  eq_refl eq_refl eq_refl eq_refl eq_refl)).
Defined.

(** C2, as stated, fails: a client that has connected and nothing more (its
    user name is still [None]) submits a share; the share handler runs (its
    two log records are there) and the client is answered with the accepted
    response, not with an error. *)
Lemma submit_before_authorize_is_accepted :
  username (client_of one_client 0%nat) = JNull /\
  exists answer,
    wire (exec (handle_line quiet_world 0%nat (inr submit_request)) one_client)
    = [Wire 0%nat answer true] /\
    dict_get answer "result" JNull = inr (JBool true) /\
    dict_get answer "error" (JStr "absent") = inr JNull /\
    log (exec (handle_line quiet_world 0%nat (inr submit_request)) one_client)
    = log one_client ++
      [(INFO, ShareSubmitted (JStr "worker") (JStr "1") (JStr "1dac2b7c"));
       (INFO, ShareAccepted (JStr "worker"))].
Proof. split; [reflexivity|]. eexists. repeat apply conj; vm_compute; reflexivity. Qed.

(** ** Difficulty *)

(** The message asks for [mining.suggest_difficulty]. *)
Definition suggests (message : json) : bool :=
  match dict_get message "method" (JStr "") with
  | inr method => eq_str method "mining.suggest_difficulty"
  | inl _ => false
  end.

Definition event_suggests (ev : event) : bool :=
  match ev with
  | Line _ (inr message) => suggests message
  | _ => false
  end.

(** [difficulty_kept s s']: the module-level difficulty is what it was. *)
Definition difficulty_kept (s s' : state) : Prop := difficulty s' = difficulty s.

Section Difficulty.

Variable W : world.

Lemma handle_suggest_difficulty_run
    (c : ref) (msg_id p0 : json) (rest : list json) (f : float) (s : state) :
  py_float (float_of_str W) p0 = inr f ->
  handle_suggest_difficulty W c msg_id (JArr (p0 :: rest)) s
  = send_to_client W c (response msg_id (JBool true))
      (set_difficulty (JFloat f)
         (set_log (log s ++ [(INFO, SuggestParams (JArr (p0 :: rest)));
                             (INFO, MinerSuggested f)]) s)).
Proof.
  intros Hf. unfold handle_suggest_difficulty.
  unfold bind at 1. unfold logger at 1, modify at 1.
  cbn [truthy py_len List.length Nat.ltb Nat.leb py_index nth_error].
  unfold bind at 1. unfold bind at 1. unfold lift at 1.
  unfold bind at 1. unfold lift at 1.
  unfold bind at 1. unfold lift at 1. rewrite Hf.
  unfold bind at 1. unfold logger at 1, modify at 1.
  unfold modify at 1. cbn [log set_log]. rewrite <- app_assoc. reflexivity.
Qed.

(** What [handle_authorize] writes first: its answer, then the difficulty in
    force, which is the module-level one. *)
Lemma handle_authorize_wire (c : ref) (msg_id user password : json) (s : state) :
  exists ok1 ok2 later,
    wire (exec (handle_authorize W c msg_id user password) s)
    = wire s ++ Wire c (response msg_id (JBool true)) ok1
             :: Wire c (difficulty_message (difficulty s)) ok2 :: later.
Proof.
  unfold handle_authorize. rewrite exec_bind, send_to_client_run.
  set (s1 := exec (send_to_client W c (response msg_id (JBool true))) s).
  assert (Hw1 : wire s1 = wire s ++ [Wire c (response msg_id (JBool true)) (send_ok W s c)])
    by apply send_to_client_wire.
  assert (Hd1 : difficulty s1 = difficulty s)
    by apply (io_only_send_to_client W c (response msg_id (JBool true)) s).
  rewrite exec_bind. unfold set_username at 1, modify at 1.
  rewrite exec_bind. unfold gets at 1. rewrite exec_bind.
  unfold logger at 1, modify at 1. rewrite exec_bind. unfold gets at 1.
  cbn [difficulty set_log set_heap]. rewrite exec_bind, send_to_client_run.
  set (s2 := set_log _ _).
  set (s3 := exec (send_to_client W c (difficulty_message (difficulty s1))) s2).
  assert (Hw3 : wire s3 = wire s2 ++ [Wire c (difficulty_message (difficulty s1)) (send_ok W s2 c)])
    by apply send_to_client_wire.
  set (k := (cb <- gets current_block ;; _)).
  assert (Hk : emits (fun _ => True) s3 (exec k s3)).
  { assert (Hp : pres (emits (fun _ => True)) k).
    { pose proof (emits_trans (fun _ : wire_event => True)) as T.
      pose proof (emits_refl (fun _ : wire_event => True)) as Rf.
      assert (Hg : pres (emits (fun _ => True)) (get_block_template W)).
      { apply (pres_get_block_template W _ (fun _ => True)); auto;
          try (intros; apply emits_same; reflexivity).
        - intros e x _. now apply emits_wire.
        - intros. apply emits_rpc. }
      assert (Hj : pres (emits (fun _ => True)) (send_job W c)).
      { apply (pres_send_job W _ (fun _ => True)); auto;
          try (intros; apply emits_same; reflexivity).
        intros e x _. now apply emits_wire. }
      unfold k.
      apply pres_bind; [exact T|apply pres_gets, Rf|intros cb].
      apply pres_bind; [exact T| |intros _].
      { destruct (negb (truthy cb)); [|apply pres_ret, Rf].
        apply pres_bind; [exact T|exact Hg|intros; apply pres_ret, Rf]. }
      apply pres_bind; [exact T|apply pres_gets, Rf|intros cb'].
      apply pres_when; [exact Rf|exact Hj]. }
    apply Hp. }
  destruct Hk as (later & _ & Hw & _).
  exists (send_ok W s c), (send_ok W s2 c), later.
  rewrite Hw, Hw3. subst s2. cbn [wire set_log set_heap]. rewrite Hw1, Hd1.
  rewrite <- !app_assoc. reflexivity.
Qed.

Lemma difficulty_kept_refl s : difficulty_kept s s.
Proof. reflexivity. Qed.

Lemma difficulty_kept_trans a b c :
  difficulty_kept a b -> difficulty_kept b c -> difficulty_kept a c.
Proof. unfold difficulty_kept. congruence. Qed.

Lemma difficulty_kept_handle_subscribe c i :
  pres difficulty_kept (handle_subscribe W c i).
Proof.
  intros s. unfold difficulty_kept, exec. rewrite handle_subscribe_run.
  match goal with |- context [send_to_client W c ?d ?x] =>
    pose proof (io_only_send_to_client W c d x) as (Hd & _);
    unfold exec in Hd; rewrite Hd end.
  destruct (is_set (extranonce1 s)); reflexivity.
Qed.

Ltac difficulty_kept_side :=
  first [ exact difficulty_kept_refl | exact difficulty_kept_trans
        | exact difficulty_kept_handle_subscribe
        | intros; exact I | intros; reflexivity ].

(** Handling a line that is not a [mining.suggest_difficulty] request leaves
    the difficulty alone. *)
Lemma difficulty_kept_handle_line c decoded :
  event_suggests (Line c decoded) = false ->
  pres difficulty_kept (handle_line W c decoded).
Proof.
  intros H. unfold handle_line.
  apply pres_catch; [exact difficulty_kept_trans| |].
  - destruct decoded as [e|message].
    + intros s. reflexivity.
    + intros s. unfold exec, bind at 1, lift at 1.
      destruct message as [| | | | | |kv]; try reflexivity.
      fold (exec (dispatch W c (JObj kv)) s).
      unfold exec.
      rewrite (dispatch_route W c (JObj kv) _ _ _ s eq_refl eq_refl eq_refl).
      apply (pres_route_other W difficulty_kept (fun _ => True));
        try difficulty_kept_side.
      exact H.
  - intros e. apply pres_bind; [exact difficulty_kept_trans| |].
    + intros s. reflexivity.
    + intros a. destruct e; intros s; reflexivity.
Qed.

Lemma difficulty_kept_run_event ev :
  event_suggests ev = false -> pres difficulty_kept (run_event W ev).
Proof.
  destruct ev as [a|c d|c|]; intros H; cbn [run_event].
  - intros s. reflexivity.
  - apply difficulty_kept_handle_line, H.
  - apply (pres_remove_client difficulty_kept); difficulty_kept_side.
  - apply pres_bind; [exact difficulty_kept_trans| |intros t s; reflexivity].
    apply (pres_get_block_template W difficulty_kept (fun _ => True));
      difficulty_kept_side.
Qed.

(** The difficulty changes only when a suggestion is handled. *)
Lemma difficulty_kept_run_events evs :
  forall s, forallb (fun ev => negb (event_suggests ev)) evs = true ->
            difficulty (run_events W evs s) = difficulty s.
Proof.
  induction evs as [|ev evs IH]; intros s H; [reflexivity|].
  cbn [forallb] in H. apply andb_prop in H as [H1 H2].
  cbn [run_events fold_left]. fold (run_events W evs (exec (run_event W ev) s)).
  rewrite IH by exact H2.
  apply difficulty_kept_run_event. now destruct (event_suggests ev).
Qed.

(** C7, as amended.  A [mining.suggest_difficulty] request whose first param
    converts to the float [f] sets the module-level [difficulty], the one
    every session is served from, to [f] itself: no minimum or maximum is
    applied.  The request is answered with success.  The value stays in
    force until another suggestion is handled: after any events that include
    no [mining.suggest_difficulty] request the difficulty is still [f], and a
    client that authorizes then, whichever it is, is told difficulty [f]. *)
Theorem suggested_difficulty_is_global_and_unclamped
    (c : ref) (msg_id p0 : json) (rest : list json) (f : float) (s : state) :
  py_float (float_of_str W) p0 = inr f ->
  let s' := exec (handle_suggest_difficulty W c msg_id (JArr (p0 :: rest))) s in
  difficulty s' = JFloat f /\
  wire s' = wire s ++
    [Wire c (JObj [("id", msg_id); ("result", JBool true); ("error", JNull)])
          (send_ok W s c)] /\
  forall evs c2 id2 user password,
    forallb (fun ev => negb (event_suggests ev)) evs = true ->
    let s2 := run_events W evs s' in
    difficulty s2 = JFloat f /\
    exists ok1 ok2 later,
      wire (exec (handle_authorize W c2 id2 user password) s2)
      = wire s2 ++
        Wire c2 (JObj [("id", id2); ("result", JBool true); ("error", JNull)]) ok1
        :: Wire c2 (JObj [("id", JNull); ("method", JStr "mining.set_difficulty");
                          ("params", JArr [JFloat f])]) ok2
        :: later.
Proof.
  intros Hf. cbv zeta.
  assert (He : exec (handle_suggest_difficulty W c msg_id (JArr (p0 :: rest))) s
               = exec (send_to_client W c (response msg_id (JBool true)))
                   (set_difficulty (JFloat f)
                      (set_log (log s ++ [(INFO, SuggestParams (JArr (p0 :: rest)));
                                          (INFO, MinerSuggested f)]) s)))
    by (unfold exec at 1; rewrite (handle_suggest_difficulty_run c msg_id p0 rest f s Hf);
        reflexivity).
  rewrite He.
  set (s0 := set_difficulty _ _).
  assert (Hd : difficulty (exec (send_to_client W c (response msg_id (JBool true))) s0)
               = JFloat f)
    by apply (io_only_send_to_client W c (response msg_id (JBool true)) s0).
  split; [exact Hd|]. split; [rewrite send_to_client_wire; reflexivity|].
  intros evs c2 id2 user password Hevs.
  set (s2 := run_events W evs _).
  assert (Hd2 : difficulty s2 = JFloat f)
    by (unfold s2; rewrite difficulty_kept_run_events by exact Hevs; exact Hd).
  split; [exact Hd2|].
  destruct (handle_authorize_wire c2 id2 user password s2)
    as (ok1 & ok2 & later & Hw).
  exists ok1, ok2, later. rewrite Hw, Hd2. reflexivity.
Qed.

End Difficulty.

Lemma suggested_difficulty_is_global_and_unclamped_witness :
  py_float (float_of_str quiet_world) (JFloat 0.5%float) = inr 0.5%float /\
  difficulty (exec (handle_suggest_difficulty quiet_world 0%nat (JInt 5)
                      (JArr [JFloat 0.5%float])) one_client)
  = JFloat 0.5%float.
Proof.
  split; [reflexivity|].
  exact (proj1 (suggested_difficulty_is_global_and_unclamped quiet_world 0%nat (JInt 5)
                  (JFloat 0.5%float) [] 0.5%float one_client eq_refl)).
Defined.

(** The process with two clients connected. *)
Definition two_clients : state :=
  exec (accept_client ("10.0.0.2", 40001)) one_client.

(** C7, as stated, fails twice over.  Client 0 suggests difficulty 0 and the
    stored difficulty becomes 0.0; it suggests -5 and the stored difficulty
    becomes -5.0: nothing is clamped.  And the value is not the requesting
    session's own: client 1, which suggested nothing, is told difficulty 0.0
    when it authorizes. *)
Lemma suggested_difficulty_zero_and_negative :
  let s0 := exec (handle_suggest_difficulty quiet_world 0%nat (JInt 5) (JArr [JInt 0]))
                 two_clients in
  let s1 := exec (handle_suggest_difficulty quiet_world 0%nat (JInt 6) (JArr [JInt (-5)]))
                 two_clients in
  difficulty s0 = JFloat 0%float /\
  difficulty s1 = JFloat (-5)%float /\
  PrimFloat.ltb (-5)%float 0%float = true /\
  nth_error (wire (exec (handle_authorize quiet_world 1%nat (JInt 2) (JStr "miner") (JStr "x"))
                        s0)) 2
  = Some (Wire 1%nat (difficulty_message (JFloat 0%float)) true).
Proof. cbv zeta. repeat apply conj; vm_compute; reflexivity. Qed.

(** ** extranonce1 *)

Lemma extranonce_kept_refl s : extranonce_kept s s.
Proof. intros e H _. exact H. Qed.

Lemma extranonce_kept_trans a b c :
  extranonce_kept a b -> extranonce_kept b c -> extranonce_kept a c.
Proof. intros H1 H2 e He Hne. apply H2; [apply H1|]; assumption. Qed.

Lemma extranonce_kept_same s s' :
  extranonce1 s' = extranonce1 s -> extranonce_kept s s'.
Proof. intros H e He _. now rewrite H. Qed.

Section Extranonce.

Variable W : world.

Lemma subscribed_extranonce_nonempty s : subscribed_extranonce W s <> "".
Proof.
  unfold subscribed_extranonce.
  assert (Hr : forall t, random_string W 8 t <> "").
  { intros t H. pose proof (random_string_length W 8 t) as L. rewrite H in L.
    discriminate L. }
  destruct (extranonce1 s) as [e|]; [|apply Hr].
  destruct (String.eqb_spec e ""); cbn [negb]; [apply Hr|assumption].
Qed.

Lemma subscribed_extranonce_set s e :
  extranonce1 s = Some e -> e <> "" -> subscribed_extranonce W s = e.
Proof.
  intros He Hne. unfold subscribed_extranonce. rewrite He.
  destruct (String.eqb_spec e ""); [contradiction|reflexivity].
Qed.

(** One [mining.subscribe]: the answer carries [subscribed_extranonce], which
    is what [extranonce1] holds from then on; the client's user name is not
    touched. *)
Lemma handle_subscribe_spec (c : ref) (msg_id : json) (s : state) :
  let s' := exec (handle_subscribe W c msg_id) s in
  let e := subscribed_extranonce W s in
  extranonce1 s' = Some e /\
  (exists ok, wire s' = wire s ++ [Wire c (response msg_id (subscribe_result e)) ok]) /\
  (forall x, username (client_of s' x) = username (client_of s x)).
Proof.
  cbv zeta. unfold exec at 1 2 3. rewrite handle_subscribe_run.
  set (s0 := if is_set (extranonce1 s) then s else _).
  fold (exec (send_to_client W c
                (response msg_id (subscribe_result (subscribed_extranonce W s)))) s0).
  pose proof (io_only_send_to_client W c
                (response msg_id (subscribe_result (subscribed_extranonce W s))) s0)
    as (_ & _ & _ & _ & He & _ & Hu & _).
  assert (H0 : extranonce1 s0 = Some (subscribed_extranonce W s) /\
               wire s0 = wire s /\
               forall x, username (client_of s0 x) = username (client_of s x)).
  { subst s0. unfold subscribed_extranonce, is_set.
    destruct (extranonce1 s) as [e|] eqn:E.
    - destruct (negb (e =? "")%string); [rewrite E|]; auto.
    - auto. }
  destruct H0 as (H1 & H2 & H3).
  split; [now rewrite He|]. split.
  - exists (send_ok W s0 c). now rewrite send_to_client_wire, H2.
  - intros x. now rewrite Hu.
Qed.

Lemma extranonce_kept_handle_subscribe c i :
  pres extranonce_kept (handle_subscribe W c i).
Proof.
  intros s e He Hne.
  destruct (handle_subscribe_spec c i s) as (H & _).
  rewrite H. f_equal. now apply subscribed_extranonce_set.
Qed.

(** Nothing the process does changes an [extranonce1] once it is set. *)
Lemma extranonce_kept_run_events evs s : extranonce_kept s (run_events W evs s).
Proof.
  apply (pres_run_events W extranonce_kept (fun _ => True));
    try solve [ exact extranonce_kept_refl | exact extranonce_kept_trans
              | exact extranonce_kept_handle_subscribe
              | intros; exact I
              | intros; apply extranonce_kept_same; reflexivity ].
  intros a s0. apply extranonce_kept_same. reflexivity.
Qed.

(** Two subscriptions, with anything happening in between. *)
Lemma subscribe_twice
    (c1 c2 : ref) (id1 id2 : json) (evs : list event) (s : state) :
  let s1 := exec (handle_subscribe W c1 id1) s in
  let s2 := run_events W evs s1 in
  let s3 := exec (handle_subscribe W c2 id2) s2 in
  let e := subscribed_extranonce W s in
  exists ok1 ok2,
    e <> "" /\
    wire s1 = wire s ++ [Wire c1 (response id1 (subscribe_result e)) ok1] /\
    wire s3 = wire s2 ++ [Wire c2 (response id2 (subscribe_result e)) ok2] /\
    extranonce1 s1 = Some e /\ extranonce1 s2 = Some e /\ extranonce1 s3 = Some e /\
    forall x, username (client_of s3 x) = username (client_of s2 x).
Proof.
  cbv zeta.
  destruct (handle_subscribe_spec c1 id1 s) as (He1 & (ok1 & Hw1) & _).
  set (s1 := exec (handle_subscribe W c1 id1) s) in *.
  set (e := subscribed_extranonce W s) in *.
  assert (Hne : e <> "") by apply subscribed_extranonce_nonempty.
  pose proof (extranonce_kept_run_events evs s1 e He1 Hne) as He2.
  set (s2 := run_events W evs s1) in *.
  destruct (handle_subscribe_spec c2 id2 s2) as (He3 & (ok2 & Hw3) & Hu).
  rewrite (subscribed_extranonce_set s2 e He2 Hne) in He3, Hw3.
  exists ok1, ok2. repeat apply conj; assumption.
Qed.

(** C5, as amended.  [extranonce1] is one value for the whole process.  The
    first [mining.subscribe] to find it unset draws it, eight lower-case
    hexadecimal characters from the random generator, and stores it in the
    module-level variable; a subscribe that finds it set uses the stored
    value.  From then on, whatever else is handled in between, the variable
    keeps that value and every session that subscribes is sent it: the two
    replies below, to any two clients, carry the same [extranonce1]. *)
Theorem all_sessions_share_extranonce1
    (c1 c2 : ref) (id1 id2 : json) (evs : list event) (s : state) :
  let s1 := exec (handle_subscribe W c1 id1) s in
  let s2 := run_events W evs s1 in
  let s3 := exec (handle_subscribe W c2 id2) s2 in
  let drawn := random_string W 8 (tick s) in
  exists e ok1 ok2,
    e = match extranonce1 s with
        | Some stored => if String.eqb stored "" then drawn else stored
        | None => drawn
        end /\
    String.length drawn = 8%nat /\ all_lower_hex drawn = true /\
    e <> "" /\
    extranonce1 s1 = Some e /\ extranonce1 s2 = Some e /\ extranonce1 s3 = Some e /\
    wire s1 = wire s ++
      [Wire c1 (JObj [("id", id1);
                      ("result", JArr [JArr [JStr "mining.notify";
                                             JStr (String.append "proxy_" e)];
                                       JStr e; JInt 4]);
                      ("error", JNull)]) ok1] /\
    wire s3 = wire s2 ++
      [Wire c2 (JObj [("id", id2);
                      ("result", JArr [JArr [JStr "mining.notify";
                                             JStr (String.append "proxy_" e)];
                                       JStr e; JInt 4]);
                      ("error", JNull)]) ok2].
Proof.
  cbv zeta.
  destruct (subscribe_twice c1 c2 id1 id2 evs s)
    as (ok1 & ok2 & Hne & Hw1 & Hw3 & He1 & He2 & He3 & _).
  exists (subscribed_extranonce W s), ok1, ok2.
  repeat apply conj; try assumption.
  - unfold subscribed_extranonce. destruct (extranonce1 s) as [x|]; [|reflexivity].
    destruct (String.eqb x ""); reflexivity.
  - apply random_string_length.
  - apply random_string_lower.
Qed.

(** C8.  Re-sending [mining.subscribe] on a session that has subscribed
    (whatever was handled in between) is answered with the same subscription
    data as the first time, the pair of the subscription and the stored
    [extranonce1] with the extranonce2 size; it changes neither the stored
    [extranonce1] nor any session's stored user name. *)
Theorem resubscribe_is_idempotent
    (c : ref) (id1 id2 : json) (evs : list event) (s : state) :
  let s1 := exec (handle_subscribe W c id1) s in
  let s2 := run_events W evs s1 in
  let s3 := exec (handle_subscribe W c id2) s2 in
  exists e ok1 ok2,
    extranonce1 s1 = Some e /\ extranonce1 s2 = Some e /\ extranonce1 s3 = Some e /\
    wire s1 = wire s ++
      [Wire c (JObj [("id", id1);
                     ("result", JArr [JArr [JStr "mining.notify";
                                            JStr (String.append "proxy_" e)];
                                      JStr e; JInt 4]);
                     ("error", JNull)]) ok1] /\
    wire s3 = wire s2 ++
      [Wire c (JObj [("id", id2);
                     ("result", JArr [JArr [JStr "mining.notify";
                                            JStr (String.append "proxy_" e)];
                                      JStr e; JInt 4]);
                     ("error", JNull)]) ok2] /\
    username (client_of s3 c) = username (client_of s2 c) /\
    (forall x, username (client_of s3 x) = username (client_of s2 x)).
Proof.
  cbv zeta.
  destruct (subscribe_twice c c id1 id2 evs s)
    as (ok1 & ok2 & _ & Hw1 & Hw3 & He1 & He2 & He3 & Hu).
  exists (subscribed_extranonce W s), ok1, ok2.
  repeat apply conj; auto.
Qed.

End Extranonce.

Definition subscribe_request : json := request (JInt 1) "mining.subscribe" (JArr []).

(** C5, as stated, fails: two distinct clients, both connected and
    registered, subscribe one after the other and are given the same
    [extranonce1]. *)
Lemma two_sessions_same_extranonce1 :
  let s := run_events quiet_world
             [Line 0%nat (inr subscribe_request); Line 1%nat (inr subscribe_request)]
             two_clients in
  clients s = [0%nat; 1%nat] /\
  wire s = [Wire 0%nat (response (JInt 1) (subscribe_result "01234567")) true;
            Wire 1%nat (response (JInt 1) (subscribe_result "01234567")) true] /\
  dict_get (response (JInt 1) (subscribe_result "01234567")) "result" JNull
  = inr (JArr [JArr [JStr "mining.notify"; JStr "proxy_01234567"];
               JStr "01234567"; JInt 4]).
Proof. cbv zeta. repeat apply conj; vm_compute; reflexivity. Qed.

(** ** Template refresh *)

(** The state once [bitcoin_rpc('getblocktemplate', ...)] has been called. *)
Definition asked (W : world) (s : state) : state :=
  set_log (log s ++ node_log W (tick s) "getblocktemplate" getblocktemplate_params)
    (set_rpc_calls (rpc_calls s ++ [("getblocktemplate", getblocktemplate_params)])
                   (set_tick (S (tick s)) s)).

(** The assignments [get_block_template] makes before it notifies anyone. *)
Definition installed (template txs height : json) (s : state) : state :=
  set_log (log s ++ [(INFO, GotTemplate height)])
    (set_job_id (job_id s + 1)
       (set_current_transactions txs (set_current_block template s))).

Definition field (kv : list (string * json)) (k : string) (dflt : json) : json :=
  match assoc k kv with Some v => v | None => dflt end.

(** [send_job]'s normalisation of the template [cb] yields the four strings
    [p], [v], [b], [t] (previous hash, version, bits, time), the clock
    reading [now] being the default for a missing [curtime]. *)
Definition normalizes (cb : json) (now : Z) (p v b t : string) : Prop :=
  exists ph vv vh bh tr th,
    dict_get cb "previousblockhash" (JStr "") = inr ph /\ truthy ph = true /\
    reversed_hex ph = inr p /\
    dict_get cb "version" (JInt 1) = inr vv /\ format_08x vv = inr vh /\
    reversed_hex (JStr vh) = inr v /\
    dict_get cb "bits" (JStr "1d00ffff") = inr bh /\ reversed_hex bh = inr b /\
    dict_get cb "curtime" (JInt now) = inr tr /\
    (if is_int tr then option_map JStr (match format_08x tr with inr h => Some h | inl _ => None end)
     else Some tr) = Some th /\
    reversed_hex th = inr t.

(** The clients [get_block_template] notifies. *)
Definition authorized (s : state) (c : ref) : bool :=
  truthy (username (client_of s c)).

Section Template.

Variable W : world.

Lemma get_block_template_failed (s : state) :
  truthy (node W (tick s) "getblocktemplate" getblocktemplate_params) = false ->
  exec (get_block_template W) s
  = exec (notify_loop W (List.length (clients s)) 0)
      (installed (dummy_template (clock W (S (tick s)))) (JArr []) (JInt 800000)
         (set_tick (S (S (tick s)))
            (set_log (log (asked W s) ++ [(ERROR, FailedTemplate)]) (asked W s)))).
Proof.
  intros H.
  unfold get_block_template. unfold exec, bind at 1. rewrite bitcoin_rpc_run.
  fold (asked W s).
  unfold time_time, logger, bind, next_tick, modify, gets, lift, ret.
  cbn [tick set_tick set_rpc_calls set_log asked fst snd]. rewrite H. cbn [negb].
  cbn [dummy_template dict_get assoc String.eqb Ascii.eqb Bool.eqb].
  unfold installed, asked.
  match goal with |- snd (match ?x with _ => _ end) = snd ?y =>
    change y with x; destruct x as [[e|[]] s'] end; reflexivity.
Qed.

Lemma get_block_template_fetched (kv : list (string * json)) (s : state) :
  node W (tick s) "getblocktemplate" getblocktemplate_params = JObj kv ->
  kv <> [] ->
  exec (get_block_template W) s
  = exec (notify_loop W (List.length (clients s)) 0)
      (installed (JObj kv) (field kv "transactions" (JArr []))
                 (field kv "height" (JStr "unknown")) (asked W s)).
Proof.
  intros H Hne.
  unfold get_block_template. unfold exec, bind at 1. rewrite bitcoin_rpc_run.
  fold (asked W s).
  unfold time_time, logger, bind, next_tick, modify, gets, lift, ret.
  cbn [tick set_tick set_rpc_calls set_log asked fst snd]. rewrite H.
  destruct kv as [|x kv']; [contradiction|]. cbn [truthy negb dict_get].
  unfold installed, asked, field.
  match goal with |- snd (match ?x with _ => _ end) = snd ?y =>
    change y with x; destruct x as [[e|[]] s'] end; reflexivity.
Qed.

End Template.

Lemma skipn_nth_error {A} (l : list A) (i : nat) (x : A) :
  nth_error l i = Some x -> skipn i l = x :: skipn (S i) l.
Proof.
  revert i. induction l as [|a l IH]; intros [|i] E; try discriminate E.
  - injection E as ->. reflexivity.
  - apply (IH i), E.
Qed.

Section Refresh.

Variable W : world.

(** C3, as amended.  When [bitcoin_rpc('getblocktemplate', ...)] returns
    nothing usable ([None], the empty dictionary of a tolerated error, or
    anything falsy), the refresh reports it in the log (after the records
    [bitcoin_rpc] itself wrote for the exchange comes "Failed to get block
    template") and carries on with a placeholder template built on the spot:
    the placeholder replaces the cached template, [current_transactions]
    becomes empty and [job_id] goes up by one, whatever was cached before. *)
Theorem failed_fetch_installs_placeholder (s : state) :
  truthy (node W (tick s) "getblocktemplate" getblocktemplate_params) = false ->
  let s' := exec (get_block_template W) s in
  current_block s' = dummy_template (clock W (S (tick s))) /\
  current_transactions s' = JArr [] /\
  job_id s' = job_id s + 1 /\
  exists l,
    log s' = log s
             ++ node_log W (tick s) "getblocktemplate" getblocktemplate_params
             ++ (ERROR, FailedTemplate) :: (INFO, GotTemplate (JInt 800000)) :: l.
Proof.
  intros H. cbv zeta. rewrite (get_block_template_failed W s H).
  match goal with |- context [exec (notify_loop W ?n 0) ?x] =>
    pose proof (io_only_notify_loop W n 0%nat x)
      as (_ & Hj & Hb & Ht & _ & _ & _ & l & Hl) end.
  rewrite Hb, Ht, Hj, Hl. repeat apply conj; try reflexivity.
  exists l. unfold installed, asked. cbn [log set_log set_job_id
    set_current_transactions set_current_block set_tick set_rpc_calls].
  rewrite <- !app_assoc. reflexivity.
Qed.

(** [send_job] on a well-formed template. *)
Lemma send_job_run (c : ref) (p v b t : string) (s : state) :
  truthy (current_block s) = true ->
  normalizes (current_block s) (clock W (tick s)) p v b t ->
  send_job W c s
  = send_to_client W c (job_notification (job_id s) p v b t)
      (set_log (log s ++ [(INFO, SendingJob (job_id s) (address (client_of s c)) b)])
               (set_tick (S (tick s)) s)).
Proof.
  intros Hcb (ph & vv & vh & bh & tr & th & H1 & H2 & H3 & H4 & H5 & H6 & H7 & H8
              & H9 & H10 & H11).
  unfold send_job, time_time, logger, bind, next_tick, modify, gets, lift, ret.
  rewrite Hcb. cbn [negb]. rewrite H1, H2. cbn [negb].
  rewrite H3, H4, H5, H6, H7, H8. cbn [current_block set_tick]. rewrite H9.
  destruct (is_int tr).
  - destruct (format_08x tr) as [e|h]; [discriminate H10|].
    cbn in H10. injection H10 as <-. rewrite H11. reflexivity.
  - injection H10 as <-. rewrite H11. reflexivity.
Qed.

(** The sockets of all registered clients are open, and no write fails. *)
Definition all_writable (s : state) : Prop :=
  (forall n, sendall_fails W n = false) /\
  Forall (fun c => socket_closed (client_of s c) = false) (clients s).

(** One turn of the notification loop. *)
Lemma notify_loop_step (fuel i : nat) (s : state) :
  exec (notify_loop W (S fuel) i) s
  = match nth_error (clients s) i with
    | None => s
    | Some c =>
        match when (authorized s c) (send_job W c) s with
        | (inr _, s1) => exec (notify_loop W fuel (S i)) s1
        | (inl _, s1) => s1
        end
    end.
Proof.
  cbn [notify_loop]. rewrite exec_bind. unfold gets at 1.
  destruct (nth_error (clients s) i) as [c|]; [|reflexivity].
  rewrite exec_bind. unfold gets at 1. rewrite exec_bind. reflexivity.
Qed.

(** The notification loop when every write succeeds: each authorized client,
    in list order, gets the job, and nobody is removed. *)
Lemma notify_loop_delivers (p v b t : string) (fuel : nat) :
  forall (i : nat) (s : state),
    (List.length (clients s) - i <= fuel)%nat ->
    all_writable s ->
    truthy (current_block s) = true ->
    (forall now, normalizes (current_block s) now p v b t) ->
    let s' := exec (notify_loop W fuel i) s in
    clients s' = clients s /\ heap s' = heap s /\
    current_block s' = current_block s /\ job_id s' = job_id s /\
    wire s' = wire s ++ map (fun c => Wire c (job_notification (job_id s) p v b t) true)
                            (List.filter (authorized s) (skipn i (clients s))).
Proof.
  induction fuel as [|fuel IH]; intros i s Hf Hw Hcb Hn; cbv zeta.
  - cbn [notify_loop]. unfold exec, ret. cbn [snd].
    rewrite skipn_all2 by lia. cbn. rewrite app_nil_r. auto.
  - rewrite notify_loop_step.
    destruct (nth_error (clients s) i) as [c|] eqn:Ec.
    + rewrite (skipn_nth_error _ _ _ Ec). cbn [List.filter].
      destruct Hw as [Hok Hopen].
      assert (Hc : socket_closed (client_of s c) = false).
      { rewrite List.Forall_forall in Hopen. apply Hopen.
        eapply nth_error_In, Ec. }
      destruct (authorized s c) eqn:Ha; cbn [when map].
      * rewrite (send_job_run c p v b t s Hcb (Hn _)), send_to_client_run.
        rewrite send_to_client_delivered
          by (unfold send_ok; cbn [tick set_log set_tick];
              change (client_of (set_log _ (set_tick _ s)) c) with (client_of s c);
              rewrite Hc, Hok; reflexivity).
        match goal with |- context [exec (notify_loop W fuel (S i)) ?x] =>
          set (s1 := x) end.
        assert (E5 : wire s1
                     = wire s ++ [Wire c (job_notification (job_id s) p v b t) true])
          by reflexivity.
        destruct (IH (S i) s1) as (I1 & I2 & I3 & I4 & I5).
        { change (clients s1) with (clients s). lia. }
        { split; [exact Hok|exact Hopen]. }
        { exact Hcb. }
        { exact Hn. }
        rewrite I1, I2, I3, I4, I5, E5, <- app_assoc.
        repeat apply conj; reflexivity.
      * unfold ret. apply IH; auto; [lia|split; assumption].
    + apply nth_error_None in Ec. rewrite skipn_all2 by lia.
      cbn. rewrite app_nil_r. auto.
Qed.

(** C4, as amended.  On every fetch that returns a template (a non-empty
    dictionary), and without any comparison with the cached one, the fetched
    template replaces the cached template, [job_id] goes up by exactly one,
    and the job is sent out: when the template's fields normalise and every
    write succeeds, each client with a user name is sent a [mining.notify]
    carrying the new job id. *)
Theorem fetched_template_always_becomes_new_job
    (kv : list (string * json)) (p v b t : string) (s : state) :
  node W (tick s) "getblocktemplate" getblocktemplate_params = JObj kv ->
  kv <> [] ->
  let s' := exec (get_block_template W) s in
  current_block s' = JObj kv /\
  job_id s' = job_id s + 1 /\
  ((forall now, normalizes (JObj kv) now p v b t) ->
   all_writable s ->
   wire s' = wire s ++ map (fun c => Wire c (job_notification (job_id s + 1) p v b t) true)
                           (List.filter (authorized s) (clients s))).
Proof.
  intros H Hne. cbv zeta. rewrite (get_block_template_fetched W kv s H Hne).
  set (s0 := installed _ _ _ _).
  pose proof (io_only_notify_loop W (List.length (clients s)) 0%nat s0)
    as (_ & Hj & Hb & _).
  rewrite Hb, Hj. repeat apply conj; try reflexivity.
  intros Hn Hw.
  assert (Hcb : truthy (current_block s0) = true)
    by (destruct kv; [contradiction|reflexivity]).
  destruct (notify_loop_delivers p v b t (List.length (clients s)) 0%nat s0)
    as (_ & _ & _ & _ & Hwire);
    [ change (clients s0) with (clients s); lia | exact Hw | exact Hcb
    | exact Hn | exact Hwire ].
Qed.

End Refresh.

(** ** The specification's hash on known inputs *)

(** SHA-256 of ["abc"] (FIPS 180-4's first example), and the double hash of
    Bitcoin's genesis block header, which is that block's hash. *)
Lemma sha256_known_answers :
  ShareValidatorSpec.sha256 [97; 98; 99]
  = default [] (ShareValidatorSpec.bytes_of_hex
      "ba7816bf8f01cfea414140de5dae2223b00361a396177a9cb410ff61f20015ad") /\
  option_map ShareValidatorSpec.dsha256
    (ShareValidatorSpec.bytes_of_hex
       (String.append
          "0100000000000000000000000000000000000000000000000000000000000000000000003ba3edfd7a7b12b27ac72c3e67768f617fc81bc3888a51323a9fb8aa"
          "4b1e5e4a29ab5f49ffff001d1dac2b7c"))
  = ShareValidatorSpec.bytes_of_hex
      "6fe28c0ab6f1b372c1a6a246ae63f74f931e8365e15a089c68d6190000000000".
Proof. split; vm_compute; reflexivity. Qed.

(** ** Concrete refreshes and submissions *)

Definition sample_template : json :=
  JObj [("previousblockhash",
         JStr "000000000019d6689c085ae165831e934ff763ae46a2a6c172b3f1b60a8ce26f");
        ("bits", JStr "1d00ffff");
        ("curtime", JInt 1231006505);
        ("version", JInt 1);
        ("height", JInt 1);
        ("transactions", JArr [])].

(** The body of the node's answer to [getblocktemplate]. *)
Definition sample_body : json :=
  JObj [("result", sample_template); ("error", JNull); ("id", JStr "proxy")].

(** The node answers every call with [sample_template]. *)
Definition steady_world : world :=
  {| http := fun _ _ _ => Replied 200 "OK" (inr sample_body);
     clock := fun _ => 1700000000;
     rand_index := fun n => n;
     rand_below_tenth := fun _ => false;
     sendall_fails := fun _ => false;
     float_of_str := fun _ => None |}.

(** The node answers for a while (the first sixteen oracle positions) and is
    unreachable from then on. *)
Definition flaky_world : world :=
  {| http := fun t _ _ => if (t <? 16)%nat then Replied 200 "OK" (inr sample_body)
                          else Refused;
     clock := fun _ => 1700000000;
     rand_index := fun n => n;
     rand_below_tenth := fun _ => false;
     sendall_fails := fun _ => false;
     float_of_str := fun _ => None |}.

Definition authorize_request : json :=
  request (JInt 2) "mining.authorize" (JArr [JStr "worker"; JStr "x"]).

(** One client has connected, subscribed and authorized; authorizing fetched
    the first template, job 1. *)
Definition mining (W : world) : state :=
  run_events W [Connect ("10.0.0.1", 40000);
                Line 0%nat (inr subscribe_request);
                Line 0%nat (inr authorize_request)] initial.

(** The job of [sample_template] as the client was sent it. *)
Definition sample_job : ShareValidatorSpec.job :=
  {| ShareValidatorSpec.prev_hash_le :=
       "6fe28c0ab6f1b372c1a6a246ae63f74f931e8365e15a089c68d6190000000000";
     ShareValidatorSpec.coinb1 := coinbase1;
     ShareValidatorSpec.coinb2 := coinbase2;
     ShareValidatorSpec.merkle_branches := [];
     ShareValidatorSpec.version_le := "01000000";
     ShareValidatorSpec.bits_le := "ffff001d" |}.

Lemma failed_fetch_installs_placeholder_witness :
  current_block (mining flaky_world) = sample_template /\
  current_block (exec (get_block_template flaky_world) (mining flaky_world))
  = dummy_template 1700000000.
Proof.
  split; [reflexivity|].
  exact (proj1 (failed_fetch_installs_placeholder flaky_world (mining flaky_world)
                  eq_refl)).
Defined.

(** C3, as stated, fails: with [sample_template] cached as job 1, a refresh
    during which the node is unreachable replaces the cached template by the
    placeholder (another previous hash, other bits, height 800000) and makes
    it job 2; the cached template is gone. *)
Lemma failed_fetch_replaces_cached_template :
  let s := mining flaky_world in
  let s' := run_events flaky_world [Refresh] s in
  current_block s = sample_template /\ job_id s = 1 /\
  node flaky_world (tick s) "getblocktemplate" getblocktemplate_params = JNull /\
  current_block s' = dummy_template 1700000000 /\
  current_block s' <> current_block s /\
  dict_get (current_block s') "height" JNull = inr (JInt 800000) /\
  job_id s' = 2.
Proof.
  cbv zeta. repeat apply conj; try (vm_compute; reflexivity).
  vm_compute. discriminate.
Qed.

Lemma sample_template_normalizes (now : Z) :
  normalizes sample_template now
    "6fe28c0ab6f1b372c1a6a246ae63f74f931e8365e15a089c68d6190000000000"
    "01000000" "ffff001d" "29ab5f49".
Proof.
  unfold normalizes. do 6 eexists. repeat apply conj; vm_compute; reflexivity.
Defined.

Lemma fetched_template_always_becomes_new_job_witness :
  let s := mining steady_world in
  let s' := exec (get_block_template steady_world) s in
  current_block s = sample_template /\
  current_block s' = sample_template /\
  job_id s' = job_id s + 1 /\
  wire s' = wire s ++
            [Wire 0%nat
               (job_notification (job_id s + 1)
                  "6fe28c0ab6f1b372c1a6a246ae63f74f931e8365e15a089c68d6190000000000"
                  "01000000" "ffff001d" "29ab5f49") true].
Proof.
  cbv zeta.
  pose proof (fetched_template_always_becomes_new_job steady_world _
                "6fe28c0ab6f1b372c1a6a246ae63f74f931e8365e15a089c68d6190000000000"
                "01000000" "ffff001d" "29ab5f49" (mining steady_world)
                eq_refl ltac:(discriminate)) as H.
  cbv zeta in H. destruct H as (Hb & Hj & Hw).
  split; [reflexivity|]. split; [exact Hb|]. split; [exact Hj|].
  apply Hw.
  - exact sample_template_normalizes.
  - split; [reflexivity|]. repeat constructor.
Defined.

(** C4, as stated, fails: the node returns the very template that is cached
    as job 1, and the refresh still makes it job 2 and sends the authorized
    client a new [mining.notify]. *)
Lemma unchanged_template_is_rebroadcast :
  let s := mining steady_world in
  let s' := run_events steady_world [Refresh] s in
  current_block s = sample_template /\
  node steady_world (tick s) "getblocktemplate" getblocktemplate_params
  = current_block s /\
  job_id s = 1 /\ job_id s' = 2 /\
  current_block s' = current_block s /\
  wire s' = wire s ++
            [Wire 0%nat
               (job_notification 2
                  "6fe28c0ab6f1b372c1a6a246ae63f74f931e8365e15a089c68d6190000000000"
                  "01000000" "ffff001d" "29ab5f49") true].
Proof. cbv zeta. repeat apply conj; vm_compute; reflexivity. Qed.

(** C1, as stated, fails.  The client holds job 1 of [sample_template] (the
    last message it was sent), the session's [extranonce1] is ["01234567"]
    and the difficulty is 1.  The share it submits hashes far above the
    target, whichever way the hash is read and even against the easiest
    target there is; it is answered with the accepted response all the same,
    and nothing is asked of the node. *)
Lemma low_difficulty_share_is_accepted :
  let s := mining steady_world in
  let s' := exec (handle_line steady_world 0%nat (inr submit_request)) s in
  truthy (current_block s) = true /\
  List.last (wire s) (Wire 0%nat JNull false)
  = Wire 0%nat
      (job_notification 1 (ShareValidatorSpec.prev_hash_le sample_job)
         (ShareValidatorSpec.version_le sample_job)
         (ShareValidatorSpec.bits_le sample_job) "29ab5f49") true /\
  extranonce1 s = Some "01234567" /\ difficulty s = JInt 1 /\
  (exists h h' target,
     ShareValidatorSpec.header_hash sample_job "01234567" "00000000" "6553f100" "1dac2b7c"
     = Some h /\
     ShareValidatorSpec.header_hash_le sample_job "01234567" "00000000" "6553f100" "1dac2b7c"
     = Some h' /\
     ShareValidatorSpec.effective_target sample_job 1 = Some target /\
     target < h /\ target < h' /\
     ShareValidatorSpec.difficulty_one_target < h /\
     ShareValidatorSpec.difficulty_one_target < h') /\
  wire s' = wire s ++ [Wire 0%nat (response (JInt 4) (JBool true)) true] /\
  rpc_calls s' = rpc_calls s.
Proof.
  cbv zeta. repeat apply conj; try (vm_compute; reflexivity).
  do 3 eexists. repeat apply conj;
    try (vm_compute; reflexivity).
Qed.

(** * Further properties of the code *)

(** ** Lines that cannot be handled *)

Section BadLines.

Variable W : world.

(** Handling a line never raises: whatever was read (undecodable bytes,
    invalid JSON, a message of any shape) and whatever a handler raises, the
    [try] of [handle_client] catches it, so the connection's loop goes on to
    the next line. *)
Theorem handle_line_never_raises (c : ref) (decoded : res json) (s : state) :
  outcome (handle_line W c decoded) s = inr tt.
Proof.
  unfold outcome, handle_line, catch.
  destruct (bind (lift decoded) (fun message => dispatch W c message) s)
    as [[e|[]] s'] eqn:E; [|reflexivity].
  destruct e; reflexivity.
Qed.

(** A line that is not valid JSON, or not decodable at all, is only logged
    (a warning for invalid JSON, an error otherwise): no reply is written,
    the client stays registered, nothing else changes. *)
Theorem undecodable_line_only_logged (c : ref) (e : exn) (s : state) :
  exec (handle_line W c (inl e)) s
  = set_log (log s ++ [match e with
                       | JSONDecodeError => (WARNING, InvalidJSON (address (client_of s c)))
                       | _ => (ERROR, ProcessingError (address (client_of s c)) e)
                       end]) s.
Proof. destruct e; reflexivity. Qed.

(** A line that decodes to something other than a JSON object (a list, a
    number, a string, null) has no [get] method: the [AttributeError] is
    logged and nothing is replied. *)
Theorem non_object_message_only_logged (c : ref) (message : json) (s : state) :
  is_dict message = false ->
  exec (handle_line W c (inr message)) s
  = set_log (log s ++ [(ERROR, ProcessingError (address (client_of s c)) AttributeError)]) s.
Proof. destruct message; intros H; try discriminate H; reflexivity. Qed.

End BadLines.

Lemma non_object_message_only_logged_witness :
  wire (exec (handle_line quiet_world 0%nat (inr (JArr [JStr "mining.subscribe"]))) one_client)
  = wire one_client /\
  clients (exec (handle_line quiet_world 0%nat (inr (JArr [JStr "mining.subscribe"]))) one_client)
  = clients one_client.
Proof.
  rewrite (non_object_message_only_logged quiet_world 0%nat
             (JArr [JStr "mining.subscribe"]) one_client eq_refl).
  split; reflexivity.
Defined.

(** ** bitcoin_rpc *)


Section Rpc.

Variable W : world.


(** An RPC error with code -8 is logged as non-critical and answered with
    the empty dictionary; [get_block_template] takes that for a failure like
    any other and installs the placeholder template as a new job. *)
Theorem tolerated_rpc_error_still_replaces_template
    (reason : string) (kv ekv : list (string * json)) (s : state) :
  http W (tick s) "getblocktemplate" getblocktemplate_params
  = Replied 200 reason (inr (JObj kv)) ->
  assoc "error" kv = Some (JObj ekv) ->
  assoc "code" ekv = Some (JInt (-8)) ->
  node W (tick s) "getblocktemplate" getblocktemplate_params = JObj [] /\
  node_log W (tick s) "getblocktemplate" getblocktemplate_params
  = [(ERROR, RpcError (JObj ekv)); (WARNING, RpcNonCritical (JObj ekv))] /\
  current_block (exec (get_block_template W) s) = dummy_template (clock W (S (tick s))) /\
  job_id (exec (get_block_template W) s) = job_id s + 1.
Proof.
  intros Hr He Hc.
  assert (Hi : interpret (http W (tick s) "getblocktemplate" getblocktemplate_params)
               = ([(ERROR, RpcError (JObj ekv)); (WARNING, RpcNonCritical (JObj ekv))],
                  JObj [])).
  { rewrite Hr. cbn [interpret Z.eqb Pos.eqb]. unfold read_result.
    cbn [py_contains py_getitem]. rewrite He. cbn [andb].
    destruct ekv as [|x ekv']; [discriminate Hc|].
    cbn [truthy is_dict dict_get andb]. rewrite Hc. reflexivity. }
  assert (Hn : node W (tick s) "getblocktemplate" getblocktemplate_params = JObj [])
    by (unfold node; rewrite Hi; reflexivity).
  split; [exact Hn|]. split; [unfold node_log; rewrite Hi; reflexivity|].
  assert (Hf : truthy (node W (tick s) "getblocktemplate" getblocktemplate_params) = false)
    by (rewrite Hn; reflexivity).
  rewrite (get_block_template_failed W s Hf).
  match goal with |- context [exec (notify_loop W ?n 0) ?x] =>
    pose proof (io_only_notify_loop W n 0%nat x) as (_ & Hj & Hb & _) end.
  rewrite Hb, Hj. split; reflexivity.
Qed.

End Rpc.

(** The node rejects the call with error code -8. *)
Definition grumpy_world : world :=
  {| http := fun _ _ _ =>
       Replied 200 "OK"
         (inr (JObj [("result", JNull);
                     ("error", JObj [("code", JInt (-8)); ("message", JStr "Work not found")]);
                     ("id", JStr "proxy")]));
     clock := fun _ => 1700000000;
     rand_index := fun n => n;
     rand_below_tenth := fun _ => false;
     sendall_fails := fun _ => false;
     float_of_str := fun _ => None |}.

Lemma tolerated_rpc_error_still_replaces_template_witness :
  current_block (exec (get_block_template grumpy_world) one_client)
  = dummy_template 1700000000 /\
  job_id (exec (get_block_template grumpy_world) one_client) = 1.
Proof.
  exact (proj2 (proj2 (tolerated_rpc_error_still_replaces_template grumpy_world "OK"
                         _ _ one_client eq_refl eq_refl eq_refl))).
Defined.

(** ** The client registry *)

Lemma mem_In (c : ref) (l : list ref) : mem c l = true <-> In c l.
Proof.
  unfold mem. rewrite existsb_exists. split.
  - intros (x & Hx & E). apply Nat.eqb_eq in E. now subst.
  - intros H. exists c. split; [exact H|apply Nat.eqb_refl].
Qed.

Lemma remove_first_In (c x : ref) (l : list ref) :
  In x (remove_first c l) -> In x l.
Proof.
  induction l as [|a l IH]; cbn; [tauto|].
  destruct (a =? c)%nat; cbn; intuition.
Qed.

Lemma remove_first_NoDup (c : ref) (l : list ref) :
  List.NoDup l -> List.NoDup (remove_first c l).
Proof.
  induction 1 as [|x l Hx Hl IH]; cbn; [constructor|].
  destruct (x =? c)%nat; [assumption|].
  constructor; [|assumption]. intros Hin. apply Hx, (remove_first_In _ _ _ Hin).
Qed.

Lemma remove_first_gone (c : ref) (l : list ref) :
  List.NoDup l -> ~ In c (remove_first c l).
Proof.
  induction 1 as [|x l Hx Hl IH]; cbn; [tauto|].
  destruct (Nat.eqb_spec x c) as [->|Hne]; [assumption|].
  cbn. intros [E|Hin]; [contradiction|exact (IH Hin)].
Qed.

Lemma remove_first_Forall (P : ref -> Prop) (c : ref) (l : list ref) :
  Forall P l -> Forall P (remove_first c l).
Proof.
  intros H. rewrite List.Forall_forall in *. intros x Hx.
  apply H, (remove_first_In _ _ _ Hx).
Qed.


Lemma client_of_insert (c x : ref) (v : client) (s : state) :
  client_of (set_heap (<[c := v]> (heap s)) s) x
  = if decide (c = x) then v else client_of s x.
Proof.
  unfold client_of. cbn [heap set_heap].
  destruct (decide (c = x)) as [->|Hne].
  - rewrite lookup_insert_eq. reflexivity.
  - rewrite lookup_insert_ne by exact Hne. reflexivity.
Qed.

(** [registered s]: no client dictionary is in [clients] twice, and each one
    in it was created by [handle_client] and is in the store. *)
Definition registered (s : state) : Prop :=
  List.NoDup (clients s) /\
  Forall (fun c => (c < next_ref s)%nat /\ is_Some (heap s !! c)) (clients s).

(** [closed_kept s s']: a socket that was closed in [s] is closed in [s']. *)
Definition closed_kept (s s' : state) : Prop :=
  (next_ref s <= next_ref s')%nat /\
  forall c, (c < next_ref s)%nat ->
            socket_closed (client_of s c) = true ->
            socket_closed (client_of s' c) = true.

(** [calls_templates_only s s']: the job counter did not go down and the node
    was asked for nothing but block templates. *)
Definition calls_templates_only (s s' : state) : Prop :=
  job_id s <= job_id s' /\
  exists calls,
    rpc_calls s' = rpc_calls s ++ calls /\
    Forall (fun call => fst call = "getblocktemplate") calls.

Section Whole.

Variable W : world.
Variable R : state -> state -> Prop.

Hypothesis R_refl : forall s, R s s.
Hypothesis R_trans : forall a b c, R a b -> R b c -> R a c.
Hypothesis R_tick : forall n s, R s (set_tick n s).
Hypothesis R_wire : forall e s, R s (set_wire (wire s ++ [e]) s).
Hypothesis R_log : forall e s, R s (set_log (log s ++ [e]) s).
Hypothesis R_close :
  forall c s, R s (set_heap (<[c := closed_client (client_of s c)]> (heap s)) s).
Hypothesis R_remove : forall c s, R s (set_clients (remove_first c (clients s)) s).
Hypothesis R_rpc :
  forall p s, R s (set_rpc_calls (rpc_calls s ++ [("getblocktemplate", p)]) s).
Hypothesis R_block : forall x s, R s (set_current_block x s).
Hypothesis R_txs : forall x s, R s (set_current_transactions x s).
Hypothesis R_job : forall s, R s (set_job_id (job_id s + 1) s).
Hypothesis R_user :
  forall c u s, R s (set_heap (<[c := renamed_client u (client_of s c)]> (heap s)) s).
Hypothesis R_difficulty : forall x s, R s (set_difficulty x s).
Hypothesis R_extranonce : forall x s, R s (set_extranonce1 x s).
Hypothesis R_accept : forall a, pres R (accept_client a).

Lemma whole_handle_subscribe c i : pres R (handle_subscribe W c i).
Proof.
  intros s. unfold exec. rewrite handle_subscribe_run.
  eapply R_trans;
    [|apply (pres_send_to_client W R (fun _ => True)); auto].
  destruct (is_set _); [apply R_refl|].
  eapply R_trans; [apply R_tick|apply R_extranonce].
Qed.

(** A relation that every assignment of the module respects holds between
    any state and the state any sequence of events takes it to. *)
Lemma whole_run_events evs s : R s (run_events W evs s).
Proof.
  apply (pres_run_events W R (fun _ => True)); auto.
  exact whole_handle_subscribe.
Qed.

End Whole.

Section Registry.

Variable W : world.

(** A write that fails on a registered client removes it: the failure and
    the disconnection are logged, the socket is closed, the client's first
    (and only) entry leaves [clients]; [send_to_client] itself returns
    normally. *)
Theorem failed_write_removes_client (c : ref) (data : json) (s : state) :
  send_ok W s c = false ->
  In c (clients s) ->
  let s' := exec (send_to_client W c data) s in
  outcome (send_to_client W c data) s = inr tt /\
  wire s' = wire s ++ [Wire c data false] /\
  clients s' = remove_first c (clients s) /\
  socket_closed (client_of s' c) = true /\
  log s' = log s ++ [(ERROR, SendError);
                     (INFO, ClientDisconnected (address (client_of s c)))].
Proof.
  intros Hok Hin. apply mem_In in Hin. cbv zeta.
  split; [apply send_to_client_returns|].
  unfold exec, send_ok, send_to_client, remove_client, close_socket, logger, when,
    bind, next_tick, gets, modify, ret in *.
  cbn -[negb orb mem].
  change (client_of (set_tick (S (tick s)) s) c) with (client_of s c).
  rewrite Hok. cbn -[mem]. rewrite Hin. cbn -[mem].
  repeat apply conj; try reflexivity.
  - unfold client_of. cbn [heap set_log set_clients set_heap set_wire set_tick].
    rewrite lookup_insert_eq. reflexivity.
  - rewrite <- app_assoc. cbn [app]. unfold client_of.
    cbn [heap set_log set_clients set_heap set_wire set_tick].
    rewrite lookup_insert_eq. reflexivity.
Qed.

(** Removing a client a second time does nothing: [remove_client] runs both
    when a write fails and when the connection's loop ends. *)
Theorem remove_client_twice (c : ref) (s : state) :
  List.NoDup (clients s) ->
  exec (remove_client c) (exec (remove_client c) s) = exec (remove_client c) s /\
  ~ In c (clients (exec (remove_client c) s)).
Proof.
  intros Hnd.
  assert (Hgone : ~ In c (clients (exec (remove_client c) s))).
  { unfold exec, remove_client, close_socket, logger, when, bind, gets, modify, ret.
    cbn -[mem]. destruct (mem c (clients s)) eqn:E; cbn -[mem].
    - apply remove_first_gone, Hnd.
    - intros Hin. apply mem_In in Hin. congruence. }
  split; [|exact Hgone].
  set (s1 := exec (remove_client c) s) in *.
  unfold exec at 1. unfold remove_client, when, bind, gets at 1.
  destruct (mem c (clients s1)) eqn:E; [|reflexivity].
  apply mem_In in E. contradiction.
Qed.

Lemma registered_accept (a : string * Z) :
  pres (fun s s' => registered s -> registered s') (accept_client a).
Proof.
  intros s [Hnd Hall]. unfold exec, accept_client, logger, bind, gets, modify, ret.
  cbn. split.
  - apply NoDup_ListNoDup. apply NoDup_app. repeat apply conj.
    + apply NoDup_ListNoDup, Hnd.
    + intros x Hx Hin. apply list_elem_of_singleton in Hin. subst x.
      rewrite List.Forall_forall in Hall. apply list_elem_of_In in Hx.
      destruct (Hall _ Hx) as [Hlt _]. lia.
    + apply NoDup_singleton.
  - apply Forall_app. split.
    + eapply Forall_impl; [exact Hall|]. cbn. intros x [Hlt Hs]. split; [lia|].
      rewrite lookup_insert_ne by (clear - Hlt; lia). exact Hs.
    + constructor; [|constructor]. cbn. split; [lia|].
      rewrite lookup_insert_eq. eauto.
Qed.

Lemma registered_run_events (evs : list event) (s : state) :
  registered s -> registered (run_events W evs s).
Proof.
  apply (whole_run_events W (fun s s' => registered s -> registered s'));
    try solve [auto | intros; assumption].
  - intros c x [Hnd Hall]. split; [exact Hnd|]. cbn [clients next_ref heap set_heap].
    eapply Forall_impl; [exact Hall|]. cbn. intros y [Hlt Hs]. split; [exact Hlt|].
    destruct (decide (c = y)) as [->|Hne];
      [rewrite lookup_insert_eq; eauto|rewrite lookup_insert_ne by exact Hne; exact Hs].
  - intros c x [Hnd Hall]. split; cbn [clients next_ref heap set_clients].
    + apply remove_first_NoDup, Hnd.
    + apply remove_first_Forall, Hall.
  - intros c u x [Hnd Hall]. split; [exact Hnd|]. cbn [clients next_ref heap set_heap].
    eapply Forall_impl; [exact Hall|]. cbn. intros y [Hlt Hs]. split; [exact Hlt|].
    destruct (decide (c = y)) as [->|Hne];
      [rewrite lookup_insert_eq; eauto|rewrite lookup_insert_ne by exact Hne; exact Hs].
  - exact registered_accept.
Qed.

(** Whatever happens (connections, lines of any content, disconnections,
    refreshes, failing writes), [clients] never holds a client twice, and it
    holds only dictionaries that [handle_client] created. *)
Theorem clients_never_duplicated (evs : list event) :
  registered (run_events W evs initial).
Proof.
  apply registered_run_events. split; [constructor|constructor].
Qed.

Lemma closed_kept_refl s : closed_kept s s.
Proof. split; auto. Qed.

Lemma closed_kept_trans a b c : closed_kept a b -> closed_kept b c -> closed_kept a c.
Proof.
  intros [H1 H2] [G1 G2]. split; [lia|]. intros x Hx Hc.
  apply G2; [lia|]. apply H2; assumption.
Qed.

Lemma closed_kept_same s s' :
  next_ref s' = next_ref s -> heap s' = heap s -> closed_kept s s'.
Proof.
  intros Hn Hh. split; [lia|]. intros c _. unfold client_of. now rewrite Hh.
Qed.

Lemma closed_kept_run_events (evs : list event) (s : state) :
  closed_kept s (run_events W evs s).
Proof.
  apply (whole_run_events W closed_kept);
    try solve [ exact closed_kept_refl | exact closed_kept_trans
              | intros; apply closed_kept_same; reflexivity ].
  - intros c s0. split; [cbn; lia|]. intros x _ Hx. rewrite client_of_insert.
    destruct (decide (c = x)); [reflexivity|exact Hx].
  - intros c u s0. split; [cbn; lia|]. intros x _ Hx. rewrite client_of_insert.
    destruct (decide (c = x)) as [->|]; [exact Hx|exact Hx].
  - intros a s0. unfold exec, accept_client, logger, bind, gets, modify, ret. cbn.
    split; [cbn; lia|]. intros x Hlt Hx. unfold client_of in *. cbn.
    rewrite lookup_insert_ne by (clear - Hlt; lia). exact Hx.
Qed.

(** A socket the proxy has closed stays closed, whatever happens next, and
    every later write to it fails: a client that was removed is never
    written to successfully again. *)
Theorem closed_socket_stays_closed (evs : list event) (c : ref) (s : state) :
  (c < next_ref s)%nat ->
  socket_closed (client_of s c) = true ->
  let s' := run_events W evs s in
  socket_closed (client_of s' c) = true /\
  forall data,
    wire (exec (send_to_client W c data) s') = wire s' ++ [Wire c data false].
Proof.
  intros Hlt Hc. cbv zeta.
  destruct (closed_kept_run_events evs s) as [_ H].
  specialize (H c Hlt Hc). split; [exact H|].
  intros data. rewrite send_to_client_wire. unfold send_ok. rewrite H. reflexivity.
Qed.

Lemma calls_templates_only_refl s : calls_templates_only s s.
Proof. split; [lia|]. exists []. rewrite app_nil_r. auto. Qed.

Lemma calls_templates_only_trans a b c :
  calls_templates_only a b -> calls_templates_only b c -> calls_templates_only a c.
Proof.
  intros (H1 & c1 & Hc1 & Hf1) (H2 & c2 & Hc2 & Hf2). split; [lia|].
  exists (c1 ++ c2). rewrite Hc2, Hc1, <- app_assoc. split; [reflexivity|].
  apply Forall_app; auto.
Qed.

Lemma calls_templates_only_same s s' :
  job_id s' = job_id s -> rpc_calls s' = rpc_calls s -> calls_templates_only s s'.
Proof.
  intros Hj Hc. split; [lia|]. exists []. rewrite app_nil_r. auto.
Qed.

(** While the proxy serves, the job counter never goes down, and the only
    thing ever asked of the node is [getblocktemplate]: no share, however it
    was answered, is passed on to the node. *)
Theorem only_templates_are_requested (evs : list event) (s : state) :
  let s' := run_events W evs s in
  job_id s <= job_id s' /\
  exists calls,
    rpc_calls s' = rpc_calls s ++ calls /\
    Forall (fun call => fst call = "getblocktemplate") calls.
Proof.
  cbv zeta. change (calls_templates_only s (run_events W evs s)).
  apply (whole_run_events W calls_templates_only);
    try solve [ exact calls_templates_only_refl | exact calls_templates_only_trans
              | intros; apply calls_templates_only_same; reflexivity ].
  - intros p s0. split; [cbn; lia|]. exists [("getblocktemplate", p)].
    split; [reflexivity|]. constructor; [reflexivity|constructor].
  - intros s0. split; [cbn; lia|]. exists []. cbn. rewrite app_nil_r. auto.
  - intros a s0. apply calls_templates_only_same; reflexivity.
Qed.

End Registry.

(** A world in which every socket write fails. *)
Definition deaf_world : world :=
  {| http := fun _ _ _ => Refused;
     clock := fun _ => 1700000000;
     rand_index := fun n => n;
     rand_below_tenth := fun _ => false;
     sendall_fails := fun _ => true;
     float_of_str := fun _ => None |}.

Lemma failed_write_removes_client_witness :
  clients (exec (send_to_client deaf_world 0%nat (response (JInt 1) (JBool true))) one_client)
  = [] /\
  clients one_client = [0%nat].
Proof.
  split; [|reflexivity].
  exact (proj1 (proj2 (proj2 (failed_write_removes_client deaf_world 0%nat
                                (response (JInt 1) (JBool true)) one_client
                                eq_refl (or_introl eq_refl))))).
Defined.

Lemma remove_client_twice_witness :
  exec (remove_client 0%nat) (exec (remove_client 0%nat) one_client)
  = exec (remove_client 0%nat) one_client.
Proof.
  refine (proj1 (remove_client_twice 0%nat one_client _)).
  constructor; [intros []|constructor].
Defined.

Lemma closed_socket_stays_closed_witness :
  socket_closed
    (client_of
       (run_events quiet_world
          [Line 0%nat (inr (request (JInt 1) "mining.subscribe" (JArr [])));
           Connect ("10.0.0.2", 40001); Refresh]
          (exec (remove_client 0%nat) one_client)) 0%nat)
  = true.
Proof.
  refine (proj1 (closed_socket_stays_closed quiet_world _ 0%nat
                   (exec (remove_client 0%nat) one_client) _ _)).
  - vm_compute. lia.
  - vm_compute. reflexivity.
Defined.

(** ** Jobs and the notification loop *)


(** [users_kept s s']: every client dictionary holds the user name it held. *)
Definition users_kept (s s' : state) : Prop :=
  forall x, username (client_of s' x) = username (client_of s x).

Section Jobs.

Variable W : world.

(** The state a failed write to a registered client leaves. *)
Lemma send_to_client_failed (c : ref) (data : json) (s : state) :
  send_ok W s c = false ->
  In c (clients s) ->
  exec (send_to_client W c data) s
  = set_log (log s ++ [(ERROR, SendError);
                       (INFO, ClientDisconnected (address (client_of s c)))])
      (set_clients (remove_first c (clients s))
         (set_heap (<[c := closed_client (client_of s c)]> (heap s))
            (set_wire (wire s ++ [Wire c data false]) (set_tick (S (tick s)) s)))).
Proof.
  intros Hok Hin. apply mem_In in Hin.
  unfold exec, send_ok, send_to_client, remove_client, close_socket, logger, when,
    bind, next_tick, gets, modify, ret in *.
  cbn -[negb orb mem].
  change (client_of (set_tick (S (tick s)) s) c) with (client_of s c).
  rewrite Hok. cbn -[mem]. rewrite Hin. cbn -[mem].
  unfold client_of. cbn [heap set_log set_clients set_heap set_wire set_tick].
  rewrite lookup_insert_eq. cbn [default from_option address closed_client].
  unfold set_log, set_clients, set_heap, set_wire, set_tick. cbn.
  rewrite <- app_assoc. reflexivity.
Qed.

(** Without a cached template, or with one that names no previous block,
    [send_job] returns at once: nothing is sent, logged or changed. *)
Theorem send_job_needs_template_and_previous_hash (c : ref) (s : state) :
  truthy (current_block s) = false \/
  (exists prevhash,
     dict_get (current_block s) "previousblockhash" (JStr "") = inr prevhash /\
     truthy prevhash = false) ->
  send_job W c s = (inr tt, s).
Proof.
  intros [H|(ph & H1 & H2)]; unfold send_job, bind, gets, lift, ret.
  - rewrite H. reflexivity.
  - destruct (truthy (current_block s)); [|reflexivity]. cbn [negb].
    rewrite H1, H2. reflexivity.
Qed.

(** A previous block hash that is not hexadecimal text (not a string, an odd
    number of digits, a stray character) makes [send_job] raise before
    anything is logged or sent. *)
Theorem send_job_raises_on_malformed_hash (c : ref) (prevhash : json) (e : exn) (s : state) :
  dict_get (current_block s) "previousblockhash" (JStr "") = inr prevhash ->
  truthy (current_block s) = true ->
  truthy prevhash = true ->
  reversed_hex prevhash = inl e ->
  send_job W c s = (inl e, s).
Proof.
  intros H1 H0 H2 H3. unfold send_job, bind, gets, lift, ret.
  rewrite H0. cbn [negb]. rewrite H1, H2. cbn [negb]. rewrite H3. reflexivity.
Qed.





(** A failed write takes the client out of [clients] while the loop of
    [get_block_template] is walking that list, so the loop's next index
    passes over the client that moved into the freed place.  With two
    authorized clients, when the write to the first fails, the second gets
    no job at all, although it is registered, authorized and writable. *)
Theorem failed_write_skips_next_client (a b : ref) (p v bits t : string) (s : state) :
  clients s = [a; b] ->
  a <> b ->
  authorized s a = true ->
  authorized s b = true ->
  socket_closed (client_of s a) || sendall_fails W (S (tick s)) = true ->
  truthy (current_block s) = true ->
  normalizes (current_block s) (clock W (tick s)) p v bits t ->
  let s' := exec (notify_loop W (List.length (clients s)) 0) s in
  wire s' = wire s ++ [Wire a (job_notification (job_id s) p v bits t) false] /\
  clients s' = [b] /\
  authorized s' b = true /\
  socket_closed (client_of s' b) = socket_closed (client_of s b).
Proof.
  intros Hc Hab Ha Hb Hfail Hcb Hn. cbv zeta. rewrite Hc. cbn [List.length].
  rewrite notify_loop_step, Hc. cbn [nth_error]. rewrite Ha. cbn [when].
  rewrite (send_job_run W a p v bits t s Hcb Hn), send_to_client_run.
  set (s0 := set_log _ (set_tick _ s)).
  rewrite (send_to_client_failed a _ s0);
    [ | unfold send_ok; subst s0; cbn [tick set_log set_tick];
        change (client_of (set_log _ (set_tick _ s)) a) with (client_of s a);
        rewrite Hfail; reflexivity
      | change (clients s0) with (clients s); rewrite Hc; left; reflexivity ].
  set (s1 := set_log _ _).
  assert (H1 : clients s1 = [b]).
  { subst s1. cbn [clients set_log set_clients]. change (clients s0) with (clients s).
    rewrite Hc. cbn [remove_first]. rewrite Nat.eqb_refl. reflexivity. }
  assert (Hb1 : client_of s1 b = client_of s b).
  { subst s1 s0. unfold client_of.
    cbn [heap set_log set_clients set_heap set_wire set_tick].
    rewrite lookup_insert_ne by exact Hab. reflexivity. }
  rewrite notify_loop_step, H1. cbn [nth_error].
  repeat apply conj.
  - reflexivity.
  - exact H1.
  - unfold authorized in *. rewrite Hb1. exact Hb.
  - rewrite Hb1. reflexivity.
Qed.

(** A template that is neither empty nor a dictionary. *)
Lemma get_block_template_malformed (s : state) :
  truthy (node W (tick s) "getblocktemplate" getblocktemplate_params) = true ->
  is_dict (node W (tick s) "getblocktemplate" getblocktemplate_params) = false ->
  get_block_template W s
  = (inl AttributeError,
     set_current_block (node W (tick s) "getblocktemplate" getblocktemplate_params)
                       (asked W s)).
Proof.
  intros Ht Hd.
  unfold get_block_template. unfold bind at 1. rewrite bitcoin_rpc_run.
  fold (asked W s).
  unfold bind at 1. rewrite Ht. cbn [negb]. unfold ret at 1.
  unfold bind at 1. unfold modify at 1. unfold bind at 1.
  destruct (node W (tick s) "getblocktemplate" getblocktemplate_params);
    try discriminate Hd; reflexivity.
Qed.

(** When the node's [result] is something other than a dictionary (and not
    empty), [get_block_template] caches it all the same and then raises on
    its first [get]: no job is numbered, nobody is notified, and from then
    on [send_job] raises for every client. *)
Theorem non_dict_template_is_cached_then_raises (s : state) :
  truthy (node W (tick s) "getblocktemplate" getblocktemplate_params) = true ->
  is_dict (node W (tick s) "getblocktemplate" getblocktemplate_params) = false ->
  let s' := exec (get_block_template W) s in
  outcome (get_block_template W) s = inl AttributeError /\
  current_block s' = node W (tick s) "getblocktemplate" getblocktemplate_params /\
  job_id s' = job_id s /\
  wire s' = wire s /\
  forall c, send_job W c s' = (inl AttributeError, s').
Proof.
  intros Ht Hd. cbv zeta. unfold outcome, exec.
  rewrite (get_block_template_malformed s Ht Hd). cbn [fst snd].
  repeat apply conj; try reflexivity.
  intros c. unfold send_job, bind, gets, lift, ret.
  cbn [current_block set_current_block]. rewrite Ht. cbn [negb].
  destruct (node W (tick s) "getblocktemplate" getblocktemplate_params);
    try discriminate Hd; reflexivity.
Qed.

(** Every run of [get_block_template] asks the node exactly once, for a
    template with the segwit rule, however the exchange ends. *)
Lemma get_block_template_calls (s : state) :
  rpc_calls (exec (get_block_template W) s)
  = rpc_calls s ++ [("getblocktemplate", getblocktemplate_params)].
Proof.
  destruct (truthy (node W (tick s) "getblocktemplate" getblocktemplate_params)) eqn:Ht.
  - destruct (node W (tick s) "getblocktemplate" getblocktemplate_params) as [| | | | | |kv] eqn:En.
    1-6: unfold exec; rewrite get_block_template_malformed by (rewrite En; auto);
         reflexivity.
    assert (Hne : kv <> []) by (intros ->; discriminate Ht).
    rewrite (get_block_template_fetched W kv s En Hne).
    match goal with |- context [exec (notify_loop W ?n 0) ?x] =>
      pose proof (io_only_notify_loop W n 0%nat x) as (_ & _ & _ & _ & _ & Hr & _) end.
    rewrite Hr. reflexivity.
  - rewrite (get_block_template_failed W s Ht).
    match goal with |- context [exec (notify_loop W ?n 0) ?x] =>
      pose proof (io_only_notify_loop W n 0%nat x) as (_ & _ & _ & _ & _ & Hr & _) end.
    rewrite Hr. reflexivity.
Qed.

Lemma users_kept_refl s : users_kept s s.
Proof. intros x. reflexivity. Qed.

Lemma users_kept_trans a b c : users_kept a b -> users_kept b c -> users_kept a c.
Proof. intros H1 H2 x. rewrite H2. apply H1. Qed.

Lemma users_kept_get_block_template : pres users_kept (get_block_template W).
Proof.
  apply (pres_get_block_template W users_kept (fun _ => True));
    try solve [ exact users_kept_refl | exact users_kept_trans
              | intros; exact I | intros; intros ?; reflexivity ].
  intros c s x. apply client_of_closed.
Qed.

End Jobs.

(** ** Concrete jobs *)

Lemma send_job_needs_template_and_previous_hash_witness :
  current_block one_client = JNull /\
  send_job quiet_world 0%nat one_client = (inr tt, one_client).
Proof.
  split; [reflexivity|].
  exact (send_job_needs_template_and_previous_hash quiet_world 0%nat one_client
           (or_introl eq_refl)).
Defined.

(** A template whose previous block hash has an odd number of digits. *)
Definition odd_template : json :=
  JObj [("previousblockhash", JStr "00000000000000000001a"); ("bits", JStr "1a03c34b")].

Lemma send_job_raises_on_malformed_hash_witness :
  send_job quiet_world 0%nat (set_current_block odd_template one_client)
  = (inl ValueError, set_current_block odd_template one_client).
Proof.
  exact (send_job_raises_on_malformed_hash quiet_world 0%nat
           (JStr "00000000000000000001a") ValueError
           (set_current_block odd_template one_client)
           eq_refl eq_refl eq_refl eq_refl).
Defined.


(** Two clients have connected and authorized; the first authorization
    fetched [sample_template], job 1. *)
Definition two_miners (W : world) : state :=
  run_events W [Connect ("10.0.0.1", 40000); Connect ("10.0.0.2", 40001);
                Line 0%nat (inr authorize_request);
                Line 1%nat (inr authorize_request)] initial.

(** As [steady_world], but the write made at oracle position 12 fails. *)
Definition lossy_world : world :=
  {| http := fun _ _ _ => Replied 200 "OK" (inr sample_body);
     clock := fun _ => 1700000000;
     rand_index := fun n => n;
     rand_below_tenth := fun _ => false;
     sendall_fails := fun t => (t =? 12)%nat;
     float_of_str := fun _ => None |}.

Lemma failed_write_skips_next_client_witness :
  let s := two_miners lossy_world in
  let s' := exec (notify_loop lossy_world 2 0) s in
  clients s = [0%nat; 1%nat] /\
  wire s' = wire s ++
            [Wire 0%nat
               (job_notification 1
                  "6fe28c0ab6f1b372c1a6a246ae63f74f931e8365e15a089c68d6190000000000"
                  "01000000" "ffff001d" "29ab5f49") false] /\
  clients s' = [1%nat].
Proof.
  cbv zeta.
  pose proof (failed_write_skips_next_client lossy_world 0%nat 1%nat
                "6fe28c0ab6f1b372c1a6a246ae63f74f931e8365e15a089c68d6190000000000"
                "01000000" "ffff001d" "29ab5f49" (two_miners lossy_world)
                eq_refl ltac:(discriminate) eq_refl eq_refl eq_refl eq_refl
                (sample_template_normalizes _)) as H.
  cbv zeta in H. destruct H as (Hw & Hc & _).
  split; [reflexivity|]. split; [exact Hw|exact Hc].
Defined.

(** The node answers [getblocktemplate] with a string. *)
Definition confused_world : world :=
  {| http := fun _ _ _ =>
       Replied 200 "OK"
         (inr (JObj [("result", JStr "loading block index");
                     ("error", JNull); ("id", JStr "proxy")]));
     clock := fun _ => 1700000000;
     rand_index := fun n => n;
     rand_below_tenth := fun _ => false;
     sendall_fails := fun _ => false;
     float_of_str := fun _ => None |}.

Lemma non_dict_template_is_cached_then_raises_witness :
  outcome (get_block_template confused_world) one_client = inl AttributeError /\
  current_block (exec (get_block_template confused_world) one_client)
  = JStr "loading block index".
Proof.
  pose proof (non_dict_template_is_cached_then_raises confused_world one_client
                eq_refl eq_refl) as H.
  cbv zeta in H. destruct H as (Ho & Hb & _).
  split; [exact Ho|exact Hb].
Defined.

(** ** Sessions *)

(** What [handle_authorize] does once its answer and the difficulty are
    out: fetch a template if none is cached, then send the job. *)
Definition authorize_tail (W : world) (c : ref) : M unit :=
  cb <- gets current_block ;;
  (if negb (truthy cb) then (_ <- get_block_template W ;; ret tt) else ret tt) ;;
  cb' <- gets current_block ;;
  when (truthy cb') (send_job W c).

(** The one call [get_block_template] makes. *)
Definition template_call : string * json :=
  ("getblocktemplate", getblocktemplate_params).

Section Sessions.

Variable W : world.

Lemma send_to_client_tick (c : ref) (d : json) (s : state) :
  tick (exec (send_to_client W c d) s) = S (tick s).
Proof.
  unfold exec, send_to_client, remove_client, close_socket, logger, when,
    bind, next_tick, gets, modify, ret. cbn.
  destruct (negb _); cbn; [reflexivity|]. case_if; reflexivity.
Qed.

Lemma users_kept_send_job (c : ref) : pres users_kept (send_job W c).
Proof.
  intros s. destruct (io_only_send_job W c s) as (_ & _ & _ & _ & _ & _ & Hu & _).
  exact Hu.
Qed.

Lemma users_kept_authorize_tail (c : ref) : pres users_kept (authorize_tail W c).
Proof.
  unfold authorize_tail.
  apply pres_bind; [exact users_kept_trans|apply pres_gets, users_kept_refl|intros cb].
  apply pres_bind; [exact users_kept_trans| |intros _].
  { destruct (negb (truthy cb)); [|apply pres_ret, users_kept_refl].
    apply pres_bind; [exact users_kept_trans|exact (users_kept_get_block_template W)|].
    intros t. apply pres_ret, users_kept_refl. }
  apply pres_bind; [exact users_kept_trans|apply pres_gets, users_kept_refl|intros cb'].
  apply pres_when; [exact users_kept_refl|apply users_kept_send_job].
Qed.

(** [handle_authorize] up to the point where the job is looked for. *)
Lemma handle_authorize_run (c : ref) (msg_id user password : json) (s : state) :
  exists s3,
    handle_authorize W c msg_id user password s = authorize_tail W c s3 /\
    username (client_of s3 c) = user /\
    rpc_calls s3 = rpc_calls s /\
    current_block s3 = current_block s /\
    job_id s3 = job_id s.
Proof.
  unfold handle_authorize. unfold bind at 1. rewrite send_to_client_run.
  set (s1 := exec (send_to_client W c (response msg_id (JBool true))) s).
  pose proof (io_only_send_to_client W c (response msg_id (JBool true)) s)
    as (_ & Hj1 & Hb1 & _ & _ & Hr1 & _). fold s1 in Hj1, Hb1, Hr1.
  unfold bind at 1. unfold set_username at 1, modify at 1.
  unfold bind at 1. unfold gets at 1.
  unfold bind at 1. unfold logger at 1, modify at 1.
  unfold bind at 1. unfold gets at 1.
  unfold bind at 1. rewrite send_to_client_run.
  match goal with |- context [exec (send_to_client W c ?d) ?x] =>
    set (s2 := x);
    pose proof (io_only_send_to_client W c d s2)
      as (_ & Hj3 & Hb3 & _ & _ & Hr3 & Hu3 & _);
    exists (exec (send_to_client W c d) s2)
  end.
  split; [reflexivity|].
  rewrite Hu3, Hr3, Hb3, Hj3. subst s2.
  cbn [rpc_calls current_block job_id set_log set_heap].
  repeat apply conj; auto.
  unfold client_of. cbn [heap set_log set_heap]. rewrite lookup_insert_eq. reflexivity.
Qed.

(** [mining.authorize] checks nothing: any user name and any password are
    answered with success, and the user name is stored as it came.  A user
    name that is false in Python (an empty string, zero, null, an empty
    list) is accepted like any other and leaves the client unauthorized as
    far as template broadcasts are concerned. *)
Theorem authorize_accepts_any_credentials
    (c : ref) (msg_id user password : json) (s : state) :
  let s' := exec (handle_authorize W c msg_id user password) s in
  (exists ok later,
     wire s' = wire s ++
       Wire c (JObj [("id", msg_id); ("result", JBool true); ("error", JNull)]) ok :: later) /\
  username (client_of s' c) = user /\
  authorized s' c = truthy user.
Proof.
  cbv zeta. split.
  - destruct (handle_authorize_wire W c msg_id user password s)
      as (ok1 & ok2 & later & Hw).
    exists ok1. eexists. exact Hw.
  - assert (Hu : username (client_of (exec (handle_authorize W c msg_id user password) s) c)
                 = user).
    { destruct (handle_authorize_run c msg_id user password s) as (s3 & E & Hu & _).
      unfold exec. rewrite E. fold (exec (authorize_tail W c) s3).
      rewrite (users_kept_authorize_tail c s3 c). exact Hu. }
    split; [exact Hu|]. unfold authorized. rewrite Hu. reflexivity.
Qed.

Lemma rpc_kept_when_send_job (b : bool) (c : ref) (s : state) :
  rpc_calls (exec (when b (send_job W c)) s) = rpc_calls s.
Proof.
  destruct b; [|reflexivity].
  destruct (io_only_send_job W c s) as (_ & _ & _ & _ & _ & Hr & _). exact Hr.
Qed.

(** [handle_authorize] asks the node for a template exactly when none is
    cached (the first authorization after start-up, or after a failed
    start), and never otherwise. *)
Theorem authorize_fetches_only_without_template
    (c : ref) (msg_id user password : json) (s : state) :
  rpc_calls (exec (handle_authorize W c msg_id user password) s)
  = rpc_calls s ++ (if truthy (current_block s) then [] else [template_call]).
Proof.
  destruct (handle_authorize_run c msg_id user password s)
    as (s3 & E & _ & Hr & Hb & _).
  unfold exec. rewrite E. fold (exec (authorize_tail W c) s3).
  unfold authorize_tail. rewrite exec_bind. unfold gets at 1. rewrite Hb.
  destruct (truthy (current_block s)); cbn [negb].
  - rewrite exec_bind. unfold ret at 1. rewrite exec_bind. unfold gets at 1.
    rewrite rpc_kept_when_send_job, Hr, app_nil_r. reflexivity.
  - rewrite exec_bind. unfold bind at 1.
    pose proof (get_block_template_calls W s3) as Hc. unfold exec in Hc.
    destruct (get_block_template W s3) as [[e|t] s4]; cbn [snd] in Hc.
    + rewrite Hc, Hr. reflexivity.
    + unfold ret at 1. rewrite exec_bind. unfold gets at 1.
      rewrite rpc_kept_when_send_job, Hc, Hr. reflexivity.
Qed.

(** [handle_submit] up to the random draw. *)
Lemma handle_submit_run
    (c : ref) (msg_id worker job e2 ntime nonce : json) (s : state) :
  exists s3,
    exec (handle_submit W c msg_id worker job e2 ntime nonce) s
    = (if rand_below_tenth W (S (tick s))
       then exec (get_block_template W) s3 else s3) /\
    rpc_calls s3 = rpc_calls s /\
    job_id s3 = job_id s /\
    current_block s3 = current_block s.
Proof.
  unfold handle_submit. rewrite exec_bind. unfold logger at 1, modify at 1.
  rewrite exec_bind, send_to_client_run.
  match goal with |- context [exec (send_to_client W c ?d) ?x] =>
    pose proof (io_only_send_to_client W c d x) as (_ & Hj & Hb & _ & _ & Hr & _);
    pose proof (send_to_client_tick c d x) as Ht;
    set (s2 := exec (send_to_client W c d) x) in *
  end.
  cbn [job_id current_block rpc_calls tick set_log] in Hj, Hb, Hr, Ht.
  rewrite exec_bind. unfold logger at 1, modify at 1.
  rewrite exec_bind. unfold random_below_tenth, bind at 1, next_tick at 1, ret at 1.
  cbn [tick set_log]. rewrite Ht.
  match goal with |- context [exec (if _ then _ else _) ?x] => exists x end.
  split.
  - destruct (rand_below_tenth W (S (tick s))); [|reflexivity].
    rewrite exec_bind. unfold exec.
    destruct (get_block_template W _) as [[e|t] s4]; reflexivity.
  - cbn [rpc_calls job_id current_block set_tick set_log]. auto.
Qed.

(** After answering, [handle_submit] refreshes the template exactly when the
    random draw falls below 0.1: then the node is asked once, and otherwise
    the template and the job counter stay as they are. *)
Theorem submit_refreshes_on_random_draw
    (c : ref) (msg_id worker job e2 ntime nonce : json) (s : state) :
  let s' := exec (handle_submit W c msg_id worker job e2 ntime nonce) s in
  let drawn := rand_below_tenth W (S (tick s)) in
  rpc_calls s' = rpc_calls s ++ (if drawn then [template_call] else []) /\
  (drawn = false -> job_id s' = job_id s /\ current_block s' = current_block s).
Proof.
  cbv zeta.
  destruct (handle_submit_run c msg_id worker job e2 ntime nonce s)
    as (s3 & E & Hr & Hj & Hb).
  rewrite E. destruct (rand_below_tenth W (S (tick s))).
  - split; [|discriminate]. rewrite get_block_template_calls, Hr. reflexivity.
  - rewrite Hr, app_nil_r. auto.
Qed.

(** A suggestion that carries no value (params empty, null or otherwise
    false) is answered with success and leaves the difficulty alone. *)
Theorem suggestion_without_value_keeps_difficulty
    (c : ref) (msg_id params : json) (s : state) :
  truthy params = false ->
  let s' := exec (handle_suggest_difficulty W c msg_id params) s in
  difficulty s' = difficulty s /\
  wire s' = wire s ++ [Wire c (response msg_id (JBool true)) (send_ok W s c)].
Proof.
  intros H. cbv zeta.
  assert (E : exec (handle_suggest_difficulty W c msg_id params) s
              = exec (send_to_client W c (response msg_id (JBool true)))
                  (set_log (log s ++ [(INFO, SuggestParams params)]) s)).
  { unfold handle_suggest_difficulty.
    rewrite exec_bind. unfold logger at 1, modify at 1. rewrite H.
    rewrite exec_bind. unfold ret at 1. reflexivity. }
  rewrite E.
  match goal with |- context [exec (send_to_client W c ?d) ?x] =>
    pose proof (io_only_send_to_client W c d x) as (Hd & _)
  end.
  rewrite Hd, send_to_client_wire. split; reflexivity.
Qed.

(** A line whose handling raises [e] somewhere in [dispatch]. *)
Lemma handle_line_caught (c : ref) (message : json) (e : exn) (s s' : state) :
  dispatch W c message s = (inl e, s') ->
  e <> JSONDecodeError ->
  handle_line W c (inr message) s
  = (inr tt, set_log (log s' ++ [(ERROR, ProcessingError (address (client_of s' c)) e)]) s').
Proof.
  intros H Hne. unfold handle_line, catch. unfold bind at 1. unfold lift at 1.
  rewrite H. destruct e; try reflexivity. contradiction.
Qed.

Lemma py_float_error (p0 : json) (e : exn) :
  py_float (float_of_str W) p0 = inl e -> e <> JSONDecodeError.
Proof.
  destruct p0; cbn; try (intros [= <-]; discriminate).
  - unfold float_of_Z. case_if; intros [= <-]; discriminate.
  - destruct (float_of_str W s); intros [= <-]; discriminate.
Qed.

(** A suggestion whose first param does not convert to a float (text that
    is no number, null, a list, an integer too large for a float) gets no
    answer at all: [float] raises before the reply is built, the exception
    is logged by [handle_client], and the difficulty stays as it was. *)
Theorem unusable_suggestion_gets_no_answer
    (c : ref) (message msg_id p0 : json) (rest : list json) (e : exn) (s : state) :
  dict_get message "method" (JStr "") = inr (JStr "mining.suggest_difficulty") ->
  dict_get message "id" (JInt 0) = inr msg_id ->
  dict_get message "params" (JArr []) = inr (JArr (p0 :: rest)) ->
  py_float (float_of_str W) p0 = inl e ->
  exec (handle_line W c (inr message)) s
  = set_log (log s ++ [(INFO, SuggestParams (JArr (p0 :: rest)));
                       (ERROR, ProcessingError (address (client_of s c)) e)]) s.
Proof.
  intros Hm Hi Hp Hf.
  assert (Hd : dispatch W c message s
               = (inl e, set_log (log s ++ [(INFO, SuggestParams (JArr (p0 :: rest)))]) s)).
  { rewrite (dispatch_route W c message _ msg_id _ s Hm Hi Hp).
    unfold route. cbn [eq_str String.eqb Ascii.eqb Bool.eqb].
    unfold handle_suggest_difficulty.
    unfold bind at 1. unfold logger at 1, modify at 1.
    cbn [truthy py_len List.length Nat.ltb Nat.leb py_index nth_error].
    unfold bind at 1. unfold bind at 1. unfold lift at 1.
    unfold bind at 1. unfold lift at 1.
    unfold bind at 1. unfold lift at 1. rewrite Hf. reflexivity. }
  unfold exec. rewrite (handle_line_caught c message e s _ Hd (py_float_error p0 e Hf)).
  cbn [snd log set_log]. rewrite <- app_assoc. reflexivity.
Qed.


(** The defaults of [handle_client]: a JSON object without a [method] is
    handled as a call of the unknown method [''] and answered with success,
    under the id it carries or under id 0 when it carries none. *)
Theorem message_without_method_is_answered
    (c : ref) (kv : list (string * json)) (s : state) :
  assoc "method" kv = None ->
  let s' := exec (handle_line W c (inr (JObj kv))) s in
  wire s' = wire s ++
    [Wire c (response (field kv "id" (JInt 0)) (JBool true)) (send_ok W s c)] /\
  exists l, log s' = log s ++ (WARNING, UnknownMethod (address (client_of s c)) (JStr "")) :: l.
Proof.
  intros Hm. cbv zeta.
  set (s1 := set_log (log s ++ [(WARNING, UnknownMethod (address (client_of s c)) (JStr ""))]) s).
  set (d := response (field kv "id" (JInt 0)) (JBool true)).
  assert (Hd : dispatch W c (JObj kv) s = send_to_client W c d s1).
  { rewrite (dispatch_route W c (JObj kv) (JStr "") (field kv "id" (JInt 0))
               (field kv "params" (JArr [])) s);
      [reflexivity|cbn [dict_get]; rewrite Hm; reflexivity|reflexivity|reflexivity]. }
  assert (Hl : handle_line W c (inr (JObj kv)) s
               = (inr tt, exec (send_to_client W c d) s1)).
  { apply handle_line_returns. rewrite Hd. apply send_to_client_run. }
  unfold exec at 1 2. rewrite Hl. cbn [snd].
  split; [rewrite send_to_client_wire; reflexivity|].
  pose proof (io_only_send_to_client W c d s1) as (_ & _ & _ & _ & _ & _ & _ & l & Hlog).
  exists l. rewrite Hlog. unfold s1. cbn [log set_log]. rewrite <- app_assoc. reflexivity.
Qed.

End Sessions.

(** ** Concrete sessions *)

Lemma suggestion_without_value_keeps_difficulty_witness :
  difficulty (exec (handle_suggest_difficulty quiet_world 0%nat (JInt 3) (JArr [])) one_client)
  = JInt 1.
Proof.
  exact (proj1 (suggestion_without_value_keeps_difficulty quiet_world 0%nat (JInt 3)
                  (JArr []) one_client eq_refl)).
Defined.

Lemma unusable_suggestion_gets_no_answer_witness :
  wire (exec (handle_line quiet_world 0%nat
                (inr (request (JInt 3) "mining.suggest_difficulty" (JArr [JStr "high"]))))
          one_client)
  = wire one_client.
Proof.
  rewrite (unusable_suggestion_gets_no_answer quiet_world 0%nat
             (request (JInt 3) "mining.suggest_difficulty" (JArr [JStr "high"]))
             (JInt 3) (JStr "high") [] ValueError one_client
             eq_refl eq_refl eq_refl eq_refl).
  reflexivity.
Defined.


Lemma message_without_method_is_answered_witness :
  wire (exec (handle_line quiet_world 0%nat (inr (JObj []))) one_client)
  = wire one_client ++ [Wire 0%nat (response (JInt 0) (JBool true)) true].
Proof.
  exact (proj1 (message_without_method_is_answered quiet_world 0%nat [] one_client
                  eq_refl)).
Defined.

(** ** extranonce1 and the coinbase *)

(** [extranonce1] is unset or eight lower-case hexadecimal digits. *)
Definition extranonce_well_formed (s : state) : Prop :=
  match extranonce1 s with
  | None => True
  | Some e => String.length e = 8%nat /\ all_lower_hex e = true
  end.

(** [generate_coinbase_tx(extranonce2)]: string concatenation with the
    module-level [extranonce1], a [TypeError] when either operand is not a
    string ([extranonce1] is [None] until the first subscribe). *)
Definition generate_coinbase_tx (extranonce2 : json) : M json :=
  e1 <- gets extranonce1 ;;
  match e1 with
  | None => raise TypeError
  | Some e =>
      match extranonce2 with
      | JStr x =>
          ret (JStr (String.append
                       "01000000010000000000000000000000000000000000000000000000000000000000000000ffffffff"
                       (String.append e x)))
      | _ => raise TypeError
      end
  end.

Section Coinbase.

Variable W : world.

Lemma extranonce_well_formed_subscribe (c : ref) (msg_id : json) :
  pres (fun s s' => extranonce_well_formed s -> extranonce_well_formed s')
       (handle_subscribe W c msg_id).
Proof.
  intros s H. unfold extranonce_well_formed in *.
  destruct (handle_subscribe_spec W c msg_id s) as (He & _). rewrite He.
  unfold subscribed_extranonce.
  pose proof (random_string_length W 8 (tick s)) as Hl.
  pose proof (random_string_lower W 8 (tick s)) as Hh.
  destruct (extranonce1 s) as [e|]; [|auto].
  destruct (negb (e =? "")%string); auto.
Qed.

(** Whatever the proxy has gone through since start-up, [extranonce1] is
    either still unset or exactly eight lower-case hexadecimal digits (four
    bytes): nothing but the draw in [handle_subscribe] ever assigns it. *)
Theorem extranonce1_is_unset_or_eight_hex_digits (evs : list event) :
  match extranonce1 (run_events W evs initial) with
  | None => True
  | Some e => String.length e = 8%nat /\ all_lower_hex e = true
  end.
Proof.
  change (extranonce_well_formed (run_events W evs initial)).
  apply (pres_run_events W (fun s s' => extranonce_well_formed s -> extranonce_well_formed s')
           (fun _ => True));
    try solve [ auto | intros; exact I | intros; assumption ].
  - exact extranonce_well_formed_subscribe.
  - intros a s H. exact H.
Qed.

(** [generate_coinbase_tx] does not build what the miners are told to build:
    it raises until a client has subscribed, and afterwards it returns a
    text two characters shorter than [coinbase1 + extranonce1 +
    extranonce2], the first part of the coinbase that [send_job] hands out
    (the script-length byte [20] that ends [coinbase1] is missing). *)
Theorem generate_coinbase_tx_differs_from_job (extranonce2 : string) (s : state) :
  match extranonce1 s with
  | None => generate_coinbase_tx (JStr extranonce2) s = (inl TypeError, s)
  | Some e =>
      exists tx,
        generate_coinbase_tx (JStr extranonce2) s = (inr (JStr tx), s) /\
        (String.length tx + 2)%nat
        = String.length (String.append coinbase1 (String.append e extranonce2)) /\
        tx <> String.append coinbase1 (String.append e extranonce2)
  end.
Proof.
  unfold generate_coinbase_tx, bind, gets, raise, ret.
  destruct (extranonce1 s) as [e|]; [|reflexivity].
  eexists. split; [reflexivity|].
  assert (L : forall a b, String.length (String.append a b)
                          = (String.length a + String.length b)%nat).
  { induction a as [|ch a IH]; intros b; [reflexivity|].
    simpl. f_equal. apply IH. }
  assert (H : (String.length
                 (String.append
                    "01000000010000000000000000000000000000000000000000000000000000000000000000ffffffff"
                    (String.append e extranonce2)) + 2)%nat
              = String.length (String.append coinbase1 (String.append e extranonce2))).
  { rewrite !L.
    change (String.length coinbase1) with 84%nat.
    change (String.length
              "01000000010000000000000000000000000000000000000000000000000000000000000000ffffffff")
      with 82%nat.
    lia. }
  split; [exact H|]. intros E. rewrite E in H. lia.
Qed.

End Coinbase.

(** ** The version and time fields *)

(** Exactly [k] hexadecimal digits of [n], least significant last, in front
    of [acc]. *)
Fixpoint hex_fixed (k : nat) (n : N) (acc : string) : string :=
  match k with
  | O => acc
  | S k' => hex_fixed k' (n / 16)%N (String (hex_digit (n mod 16)) acc)
  end.

(** [z.to_bytes(4, 'little')] *)
Definition byte_of_Z (z : Z) : Byte.byte :=
  match Byte.of_N (Z.to_N (z mod 256)) with Some b => b | None => Byte.x00 end.

Definition le_bytes32 (z : Z) : list Byte.byte :=
  [byte_of_Z z; byte_of_Z (z / 256); byte_of_Z (z / 65536); byte_of_Z (z / 16777216)].

Lemma zeros_snoc (k : nat) (acc : string) :
  String.append (zeros (S k)) acc = String.append (zeros k) (String "0"%char acc).
Proof.
  induction k as [|k IH]; [reflexivity|].
  exact (f_equal (String "0"%char) IH).
Qed.

Lemma hex_digits_zero (fuel : nat) (acc : string) : hex_digits fuel 0%N acc = acc.
Proof. destruct fuel; reflexivity. Qed.

(** Padding the digits [hex_digits] writes gives the fixed-width form. *)
Lemma hex_digits_padded (k : nat) :
  forall (fuel : nat) (n : N) (acc : string),
    (n < 16 ^ N.of_nat k)%N -> (n < 2 ^ N.of_nat fuel)%N ->
    String.append
      (zeros (k + String.length acc - String.length (hex_digits fuel n acc)))
      (hex_digits fuel n acc)
    = hex_fixed k n acc.
Proof.
  induction k as [|k IH]; intros fuel n acc Hk Hf.
  - assert (n = 0%N) by (cbn in Hk; lia). subst n.
    rewrite hex_digits_zero. cbn [hex_fixed].
    replace (0 + String.length acc - String.length acc)%nat with 0%nat by lia.
    reflexivity.
  - rewrite Nat2N.inj_succ, N.pow_succ_r' in Hk.
    destruct (N.eq_dec n 0%N) as [->|Hn].
    + rewrite hex_digits_zero. cbn [hex_fixed].
      change (0 / 16)%N with 0%N. change (0 mod 16)%N with 0%N.
      change (hex_digit 0%N) with "0"%char.
      specialize (IH fuel 0%N (String "0"%char acc)).
      rewrite hex_digits_zero in IH. rewrite <- IH.
      * cbn [String.length].
        replace (S k + String.length acc - String.length acc)%nat with (S k) by lia.
        replace (k + S (String.length acc) - S (String.length acc))%nat with k by lia.
        apply zeros_snoc.
      * pose proof (N.pow_nonzero 16 (N.of_nat k)). lia.
      * pose proof (N.pow_nonzero 2 (N.of_nat fuel)). lia.
    + destruct fuel as [|fuel]; [cbn in Hf; lia|].
      rewrite Nat2N.inj_succ, N.pow_succ_r' in Hf.
      cbn [hex_digits hex_fixed].
      destruct (N.eqb_spec n 0%N) as [E|_]; [contradiction|].
      rewrite <- (IH fuel (n / 16)%N (String (hex_digit (n mod 16)) acc)).
      * cbn [String.length].
        replace (k + S (String.length acc))%nat with (S k + String.length acc)%nat by lia.
        reflexivity.
      * apply N.Div0.div_lt_upper_bound. lia.
      * apply N.Div0.div_lt_upper_bound.
        pose proof (N.pow_nonzero 2 (N.of_nat fuel)). lia.
Qed.

(** [format(z, '08x')] for a number that fits in 32 bits. *)
Lemma format_08x_int_fixed (z : Z) :
  0 <= z < 4294967296 -> format_08x_int z = hex_fixed 8 (Z.to_N z) EmptyString.
Proof.
  intros Hz. unfold format_08x_int.
  destruct (Z.ltb_spec z 0) as [|_]; [lia|].
  replace (Z.abs_N z) with (Z.to_N z) by lia.
  set (n := Z.to_N z).
  assert (Hn : (n < 16 ^ N.of_nat 8)%N) by (change (16 ^ N.of_nat 8)%N with 4294967296%N; lia).
  unfold hex_of_N. destruct (N.eqb_spec n 0%N) as [->|Hne]; [reflexivity|].
  rewrite <- (hex_digits_padded 8 (N.to_nat (N.size n)) n EmptyString Hn).
  - reflexivity.
  - rewrite N2Nat.id. apply N.size_gt.
Qed.

Lemma fromhex_digits (hi lo : N) (r : string) :
  (hi < 16)%N -> (lo < 16)%N ->
  fromhex (String (hex_digit hi) (String (hex_digit lo) r))
  = option_map (cons (byte_of_nibbles hi lo)) (fromhex r).
Proof.
  intros Hh Hl.
  assert (D : forall d, (d < 16)%N ->
                        is_space (hex_digit d) = false /\ nibble (hex_digit d) = Some d).
  { intros d Hd.
    assert (E : (d = 0 \/ d = 1 \/ d = 2 \/ d = 3 \/ d = 4 \/ d = 5 \/ d = 6 \/ d = 7 \/
                 d = 8 \/ d = 9 \/ d = 10 \/ d = 11 \/ d = 12 \/ d = 13 \/ d = 14 \/
                 d = 15)%N) by lia.
    repeat (destruct E as [->|E]; [split; reflexivity|]). subst d. split; reflexivity. }
  destruct (D hi Hh) as [S1 N1]. destruct (D lo Hl) as [_ N2].
  cbn [fromhex]. rewrite S1, N1, N2. reflexivity.
Qed.

Lemma byte_of_nibbles_Z (z : Z) (hi lo : N) :
  0 <= z ->
  (hi * 16 + lo)%N = Z.to_N (z mod 256) ->
  byte_of_nibbles hi lo = byte_of_Z z.
Proof. intros _ H. unfold byte_of_nibbles, byte_of_Z. rewrite H. reflexivity. Qed.

(** [format(z, '08x')] and the byte reversal, on a number that fits in 32
    bits. *)
Lemma reversed_format_08x_int (z : Z) :
  0 <= z < 4294967296 ->
  reversed_hex (JStr (format_08x_int z)) = inr (hex (le_bytes32 z)).
Proof.
  intros Hz.
  rewrite (format_08x_int_fixed z Hz).
  set (n := Z.to_N z). cbn [hex_fixed].
  unfold reversed_hex, bytes_fromhex.
  rewrite !fromhex_digits by (apply N.mod_lt; discriminate).
  cbn [fromhex option_map rev app].
  unfold le_bytes32. do 2 f_equal.
  assert (B : forall k : Z, 0 <= k ->
                (((Z.to_N k / 16) mod 16) * 16 + Z.to_N k mod 16)%N
                = Z.to_N (k mod 256)).
  { intros k Hk. zify. Z.to_euclidean_division_equations. lia. }
  assert (Q : forall k d : Z, 0 <= k -> 0 < d -> (Z.to_N k / Z.to_N d)%N = Z.to_N (k / d)).
  { intros k d Hk Hd. zify. Z.to_euclidean_division_equations. nia. }
  repeat match goal with
         | |- _ :: _ = _ :: _ => f_equal
         end.
  - apply byte_of_nibbles_Z; [lia|]. apply B. lia.
  - apply byte_of_nibbles_Z; [apply Z.div_pos; lia|].
    rewrite <- B by (apply Z.div_pos; lia). subst n.
    rewrite <- (Q z 256) by lia. change (Z.to_N 256) with 256%N.
    rewrite !N.Div0.div_div. reflexivity.
  - apply byte_of_nibbles_Z; [apply Z.div_pos; lia|].
    rewrite <- B by (apply Z.div_pos; lia). subst n.
    rewrite <- (Q z 65536) by lia. change (Z.to_N 65536) with 65536%N.
    rewrite !N.Div0.div_div. reflexivity.
  - apply byte_of_nibbles_Z; [apply Z.div_pos; lia|].
    rewrite <- B by (apply Z.div_pos; lia). subst n.
    rewrite <- (Q z 16777216) by lia. change (Z.to_N 16777216) with 16777216%N.
    rewrite !N.Div0.div_div. reflexivity.
Qed.

(** The version and the time as [send_job] encodes them.  An integer that
    fits in 32 bits comes out as exactly four bytes, least significant
    first, in lower-case hexadecimal: [format(z, '08x')] followed by the
    byte reversal is [z.to_bytes(4, 'little').hex()]. *)
Theorem formatted_field_is_four_little_endian_bytes (z : Z) :
  0 <= z < 4294967296 ->
  format_08x (JInt z) = inr (format_08x_int z) /\
  reversed_hex (JStr (format_08x_int z)) = inr (hex (le_bytes32 z)) /\
  List.length (le_bytes32 z) = 4%nat /\
  String.length (hex (le_bytes32 z)) = 8%nat.
Proof.
  intros Hz. split; [reflexivity|]. split; [|split; reflexivity].
  apply reversed_format_08x_int, Hz.
Qed.

(** A negative number has no such encoding: [format] writes a minus sign,
    which [bytes.fromhex] rejects, so a template with a negative version or
    time makes [send_job] raise [ValueError]. *)
Theorem negative_field_cannot_be_encoded (z : Z) :
  z < 0 ->
  exists digits,
    format_08x (JInt z) = inr (String "-"%char digits) /\
    reversed_hex (JStr (String "-"%char digits)) = inl ValueError.
Proof.
  intros Hz. unfold format_08x, format_08x_int.
  destruct (Z.ltb_spec z 0) as [_|]; [|lia].
  eexists. split; reflexivity.
Qed.

Lemma formatted_field_is_four_little_endian_bytes_witness :
  format_08x (JInt 536870912) = inr "20000000" /\
  reversed_hex (JStr (format_08x_int 536870912)) = inr "00000020".
Proof.
  split; [reflexivity|].
  refine (eq_trans (proj1 (proj2 (formatted_field_is_four_little_endian_bytes
                                    536870912 _))) _);
    [lia|reflexivity].
Defined.

Lemma negative_field_cannot_be_encoded_witness :
  exists digits,
    format_08x (JInt (-1)) = inr (String "-"%char digits) /\
    reversed_hex (JStr (String "-"%char digits)) = inl ValueError.
Proof.
  refine (negative_field_cannot_be_encoded (-1) _). lia.
Defined.

(** ** The placeholder job and the first job of a session *)

Lemma lower_hex_is_no_sign (c : ascii) :
  is_lower_hex c = true -> (Ascii.eqb c "-" || Ascii.eqb c "+")%char = false.
Proof.
  destruct c as [[] [] [] [] [] [] [] []]; cbv; intros H; try discriminate H;
    reflexivity.
Qed.

(** What [hex_digits] writes starts with a digit. *)
Lemma hex_digits_head (fuel : nat) :
  forall (n : N) (acc : string),
    (n < 2 ^ N.of_nat fuel)%N ->
    (acc = EmptyString -> n <> 0%N) ->
    (forall c r, acc = String c r -> is_lower_hex c = true) ->
    exists c r, hex_digits fuel n acc = String c r /\ is_lower_hex c = true.
Proof.
  induction fuel as [|fuel IH]; intros n acc Hf Hn Hacc.
  - assert (n = 0%N) by (cbn in Hf; lia). subst n. cbn [hex_digits].
    destruct acc as [|c r]; [exfalso; apply (Hn eq_refl eq_refl)|].
    exists c, r. split; [reflexivity|]. apply (Hacc c r eq_refl).
  - cbn [hex_digits]. destruct (N.eqb_spec n 0%N) as [->|Hne].
    + destruct acc as [|c r]; [exfalso; apply (Hn eq_refl eq_refl)|].
      exists c, r. split; [reflexivity|]. apply (Hacc c r eq_refl).
    + rewrite Nat2N.inj_succ, N.pow_succ_r' in Hf.
      apply IH.
      * apply N.Div0.div_lt_upper_bound.
        pose proof (N.pow_nonzero 2 (N.of_nat fuel)). lia.
      * discriminate.
      * intros c r [= <- <-]. apply hex_digit_lower.
Qed.

Lemma hex_of_N_head (n : N) :
  exists c r, hex_of_N n = String c r /\ is_lower_hex c = true.
Proof.
  unfold hex_of_N. destruct (N.eqb_spec n 0%N) as [->|Hne].
  - exists "0"%char, EmptyString. split; reflexivity.
  - apply hex_digits_head.
    + rewrite N2Nat.id. apply N.size_gt.
    + intros _. exact Hne.
    + discriminate.
Qed.

(** [hex(z)[2:].zfill(8)] and [format(z, '08x')] agree on the numbers that
    are not negative. *)
Lemma zfill8_hex_slice2 (z : Z) :
  0 <= z -> zfill8 (hex_slice2 z) = format_08x_int z.
Proof.
  intros Hz. unfold hex_slice2, format_08x_int.
  destruct (Z.ltb_spec z 0) as [|_]; [lia|].
  destruct (hex_of_N_head (Z.abs_N z)) as (c & r & E & Hc). rewrite E.
  unfold zfill8. rewrite (lower_hex_is_no_sign c Hc). reflexivity.
Qed.

(** The placeholder template is one [send_job] can encode. *)
Lemma dummy_template_normalizes (now now' : Z) :
  0 <= now < 4294967296 ->
  normalizes (dummy_template now) now'
    "4c8f2a1b2ac6f297dddd1db167d25a8b7a555ca79b6b09000000000000000000"
    "01000000" "4bc3031a" (hex (le_bytes32 now)).
Proof.
  intros Hn. unfold normalizes.
  exists (JStr "000000000000000000096b9ba75c557a8b5ad267b11ddddd97f2c62a1b2a8f4c"),
    (JInt 1), "00000001", (JStr "1a03c34b"),
    (JStr (zfill8 (hex_slice2 now))), (JStr (zfill8 (hex_slice2 now))).
  repeat apply conj; try reflexivity.
  rewrite zfill8_hex_slice2 by lia. apply reversed_format_08x_int, Hn.
Qed.

Section Placeholder.

Variable W : world.

(** A failed fetch is broadcast like a fetched template.  When the node
    gives no template, every client with a user name is sent the
    placeholder as the next job (as long as the writes succeed): previous
    hash, bits and height-800000 data that come from no node, and the
    proxy's own clock as the time. *)
Theorem failed_fetch_broadcasts_placeholder (s : state) :
  truthy (node W (tick s) "getblocktemplate" getblocktemplate_params) = false ->
  all_writable W s ->
  0 <= clock W (S (tick s)) < 4294967296 ->
  let s' := exec (get_block_template W) s in
  wire s' = wire s ++
    map (fun c =>
           Wire c (job_notification (job_id s + 1)
                     "4c8f2a1b2ac6f297dddd1db167d25a8b7a555ca79b6b09000000000000000000"
                     "01000000" "4bc3031a" (hex (le_bytes32 (clock W (S (tick s))))))
                true)
        (List.filter (authorized s) (clients s)).
Proof.
  intros Hf Hw Hc. cbv zeta. rewrite (get_block_template_failed W s Hf).
  set (s0 := installed _ _ _ _).
  destruct (notify_loop_delivers W
              "4c8f2a1b2ac6f297dddd1db167d25a8b7a555ca79b6b09000000000000000000"
              "01000000" "4bc3031a" (hex (le_bytes32 (clock W (S (tick s)))))
              (List.length (clients s)) 0%nat s0)
    as (_ & _ & _ & _ & Hwire).
  - change (clients s0) with (clients s). lia.
  - exact Hw.
  - reflexivity.
  - intros now. apply dummy_template_normalizes, Hc.
  - exact Hwire.
Qed.


End Placeholder.

Lemma failed_fetch_broadcasts_placeholder_witness :
  let s := mining quiet_world in
  wire (exec (get_block_template quiet_world) s)
  = wire s ++
    [Wire 0%nat
       (job_notification 2
          "4c8f2a1b2ac6f297dddd1db167d25a8b7a555ca79b6b09000000000000000000"
          "01000000" "4bc3031a" "00f15365") true].
Proof.
  cbv zeta.
  refine (failed_fetch_broadcasts_placeholder quiet_world (mining quiet_world) _ _ _).
  - reflexivity.
  - split; [intros n; reflexivity|]. vm_compute. repeat constructor.
  - change (0 <= 1700000000 < 4294967296). lia.
Defined.


(** ** Framing: lines off a connection's buffer *)

Definition newline : Byte.byte := Byte.x0a.

(** [buf.split(b'\n', 1)] when [b'\n' in buf]: the bytes before the first
    newline and the bytes after it.  [None] when [buf] holds no newline. *)
Fixpoint split_newline (buf : list Byte.byte)
  : option (list Byte.byte * list Byte.byte) :=
  match buf with
  | [] => None
  | b :: r =>
      if Byte.eqb b newline then Some ([], r)
      else match split_newline r with
           | Some (line, rest) => Some (b :: line, rest)
           | None => None
           end
  end.

(** The loop [while b'\n' in client['buffer']] of [handle_client]: the
    lines it takes off the buffer, in order, and the buffer it leaves.  No
    handler touches the buffer, so the lines do not depend on how each one
    is handled. *)
Fixpoint take_lines (fuel : nat) (buf : list Byte.byte)
  : list (list Byte.byte) * list Byte.byte :=
  match fuel with
  | O => ([], buf)
  | S fuel' =>
      match split_newline buf with
      | None => ([], buf)
      | Some (line, rest) =>
          let (ls, r) := take_lines fuel' rest in (line :: ls, r)
      end
  end.

(** [client['buffer'] += data] and the loop after it.  Every turn takes at
    least one byte off the buffer, so its length bounds the turns. *)
Definition receive (buffer data : list Byte.byte)
  : list (list Byte.byte) * list Byte.byte :=
  take_lines (List.length (buffer ++ data)) (buffer ++ data).

Lemma split_newline_some (buf line rest : list Byte.byte) :
  split_newline buf = Some (line, rest) ->
  buf = line ++ newline :: rest /\ ~ In newline line.
Proof.
  revert line rest. induction buf as [|b r IH]; intros line rest H; [discriminate H|].
  cbn [split_newline] in H. destruct (Byte.eqb b newline) eqn:E.
  - injection H as <- <-. apply Byte.byte_dec_bl in E. subst b. split; [reflexivity|].
    intros [].
  - destruct (split_newline r) as [[l' r']|]; [|discriminate H].
    injection H as <- <-. destruct (IH l' r' eq_refl) as [-> Hn].
    split; [reflexivity|]. intros [->|Hin]; [|exact (Hn Hin)].
    rewrite (Byte.byte_dec_lb eq_refl) in E. discriminate E.
Qed.

Lemma split_newline_app (x y line rest : list Byte.byte) :
  split_newline x = Some (line, rest) ->
  split_newline (x ++ y) = Some (line, rest ++ y).
Proof.
  revert line rest. induction x as [|b r IH]; intros line rest H; [discriminate H|].
  cbn [split_newline app] in *. destruct (Byte.eqb b newline).
  - injection H as <- <-. reflexivity.
  - destruct (split_newline r) as [[l' r']|]; [|discriminate H].
    injection H as <- <-. rewrite (IH l' r' eq_refl). reflexivity.
Qed.

Lemma take_lines_fuel (fuel : nat) :
  forall (fuel' : nat) (buf : list Byte.byte),
    (List.length buf <= fuel)%nat -> (List.length buf <= fuel')%nat ->
    take_lines fuel buf = take_lines fuel' buf.
Proof.
  induction fuel as [|fuel IH]; intros [|fuel'] buf H H'; try reflexivity.
  - destruct buf; [reflexivity|cbn in H; lia].
  - destruct buf; [reflexivity|cbn in H'; lia].
  - cbn [take_lines]. destruct (split_newline buf) as [[line rest]|] eqn:E; [|reflexivity].
    destruct (split_newline_some _ _ _ E) as [-> _].
    rewrite length_app in H, H'. cbn [List.length] in H, H'.
    rewrite (IH fuel' rest) by lia. reflexivity.
Qed.

(** The loop leaves the buffer without a newline, and what it took off,
    each line with its newline back, followed by what it left, is what it
    was given. *)
Lemma take_lines_spec (fuel : nat) :
  forall (buf : list Byte.byte),
    (List.length buf <= fuel)%nat ->
    split_newline (snd (take_lines fuel buf)) = None /\
    concat (map (fun l => l ++ [newline]) (fst (take_lines fuel buf)))
      ++ snd (take_lines fuel buf) = buf /\
    Forall (fun l => ~ In newline l) (fst (take_lines fuel buf)).
Proof.
  induction fuel as [|fuel IH]; intros buf H.
  - destruct buf; [|cbn in H; lia]. cbn. auto.
  - cbn [take_lines]. destruct (split_newline buf) as [[line rest]|] eqn:E.
    + destruct (split_newline_some _ _ _ E) as [-> Hn].
      rewrite length_app in H. cbn [List.length] in H.
      destruct (IH rest) as (I1 & I2 & I3); [lia|].
      destruct (take_lines fuel rest) as [ls r]. cbn [fst snd] in *.
      split; [exact I1|]. split.
      * cbn [map concat]. rewrite <- !app_assoc. cbn [app]. rewrite I2. reflexivity.
      * constructor; assumption.
    + cbn [fst snd map concat app]. auto.
Qed.

Lemma take_lines_app (fuel1 : nat) :
  forall (fuel fuel2 : nat) (x y : list Byte.byte),
    (List.length x <= fuel1)%nat ->
    (List.length (x ++ y) <= fuel)%nat ->
    (List.length (snd (take_lines fuel1 x) ++ y) <= fuel2)%nat ->
    take_lines fuel (x ++ y)
    = (fst (take_lines fuel1 x) ++ fst (take_lines fuel2 (snd (take_lines fuel1 x) ++ y)),
       snd (take_lines fuel2 (snd (take_lines fuel1 x) ++ y))).
Proof.
  induction fuel1 as [|fuel1 IH]; intros fuel fuel2 x y H1 H H2.
  - destruct x; [|cbn in H1; lia]. cbn [take_lines fst snd app] in *.
    rewrite (take_lines_fuel fuel fuel2 y H H2).
    destruct (take_lines fuel2 y); reflexivity.
  - cbn [take_lines] in *. destruct (split_newline x) as [[line rest]|] eqn:E.
    + destruct (split_newline_some _ _ _ E) as [-> _].
      rewrite length_app in H1. cbn [List.length] in H1.
      rewrite <- app_assoc in H. cbn [app] in H.
      rewrite length_app in H. cbn [List.length] in H.
      destruct fuel as [|fuel]; [lia|].
      cbn [take_lines]. rewrite (split_newline_app _ y _ _ E).
      specialize (IH fuel fuel2 rest y).
      destruct (take_lines fuel1 rest) as [ls r]. cbn [fst snd] in *.
      rewrite IH by lia.
      destruct (take_lines fuel2 (r ++ y)); reflexivity.
    + cbn [fst snd app] in *.
      rewrite (take_lines_fuel fuel fuel2 (x ++ y) H H2).
      destruct (take_lines fuel2 (x ++ y)); reflexivity.
Qed.

(** Framing does not depend on how the bytes arrive.  Whatever a buffer
    holds, receiving [d1] and then [d2] hands the handlers the same lines,
    in the same order, as receiving [d1 ++ d2] at once, and leaves the same
    bytes in the buffer; the bytes left hold no newline (an unterminated
    last line waits for its newline), no line holds one, and the lines with
    their newlines, followed by the bytes left, are exactly the bytes
    received. *)
Theorem framing_is_chunk_independent
    (buffer d1 d2 : list Byte.byte)
    (l1 l2 : list (list Byte.byte)) (r1 r2 : list Byte.byte) :
  receive buffer d1 = (l1, r1) ->
  receive r1 d2 = (l2, r2) ->
  receive buffer (d1 ++ d2) = (l1 ++ l2, r2) /\
  split_newline r2 = None /\
  Forall (fun l => ~ In newline l) (l1 ++ l2) /\
  concat (map (fun l => l ++ [newline]) (l1 ++ l2)) ++ r2 = buffer ++ d1 ++ d2.
Proof.
  unfold receive. intros E1 E2.
  assert (E : take_lines (List.length (buffer ++ d1 ++ d2)) (buffer ++ d1 ++ d2)
              = (l1 ++ l2, r2)).
  { rewrite app_assoc.
    rewrite (take_lines_app (List.length (buffer ++ d1))
               (List.length ((buffer ++ d1) ++ d2)) (List.length (r1 ++ d2))
               (buffer ++ d1) d2);
      rewrite ?E1; cbn [fst snd]; rewrite ?E2; auto. }
  split; [exact E|].
  destruct (take_lines_spec (List.length (buffer ++ d1 ++ d2)) (buffer ++ d1 ++ d2))
    as (S1 & S2 & S3); [lia|].
  rewrite E in S1, S2, S3. cbn [fst snd] in *. auto.
Qed.

Lemma framing_is_chunk_independent_witness :
  receive [] [Byte.x7b; Byte.x7d; Byte.x0a; Byte.x7b] = ([[Byte.x7b; Byte.x7d]], [Byte.x7b]) /\
  receive [Byte.x7b] [Byte.x7d; Byte.x0a] = ([[Byte.x7b; Byte.x7d]], []) /\
  receive [] ([Byte.x7b; Byte.x7d; Byte.x0a; Byte.x7b] ++ [Byte.x7d; Byte.x0a])
  = ([[Byte.x7b; Byte.x7d]] ++ [[Byte.x7b; Byte.x7d]], []).
Proof.
  split; [reflexivity|]. split; [reflexivity|].
  exact (proj1 (framing_is_chunk_independent []
                  [Byte.x7b; Byte.x7d; Byte.x0a; Byte.x7b] [Byte.x7d; Byte.x0a]
                  [[Byte.x7b; Byte.x7d]] [[Byte.x7b; Byte.x7d]] [Byte.x7b] []
                  eq_refl eq_refl)).
Defined.
